(** * AES provider of node-webcrypto-p11 ([src/lib/crypto/aes.ts])

    A shallow embedding of the AES cipher adapter: the key template
    builder [create_template], the abstract provider [AesCrypto]
    (generateKey, exportKey, importKey, encrypt, decrypt,
    getOutputBufferSize) and its three modes [AesGCM], [AesCBC] and
    [AesECB], followed by the properties of the padding engine, of the
    buffer sizing, of the template builder, of the GCM mechanism mapper
    and of key export and import. *)

From Stdlib Require Import ZArith List String Ascii Bool Lia.
From Stdlib Require Import DecimalString DecimalPos DecimalZ.
From Stdlib.Strings Require Import Byte.
Import ListNotations.

Open Scope Z_scope.

(* ================================================================== *)
(** ** JavaScript numbers *)
(* ================================================================== *)

(** The numbers the provider computes with are lengths, sizes and the
    results of arithmetic on them: integer-valued doubles, the two
    infinities and NaN.  [Num z] stands for the double of value [z], which
    is exact for [|z| <= 2^53]. *)
Module Js.

Inductive number : Type :=
| Num (z : Z)
| PosInf
| NegInf
| NaN.

(** ToNumber of a value that may be [undefined]. *)
Definition of_undefinable (o : option Z) : number :=
  match o with
  | Some z => Num z
  | None => NaN
  end.

Definition neg (a : number) : number :=
  match a with
  | Num z => Num (- z)
  | PosInf => NegInf
  | NegInf => PosInf
  | NaN => NaN
  end.

Definition add (a b : number) : number :=
  match a, b with
  | NaN, _ | _, NaN => NaN
  | PosInf, NegInf | NegInf, PosInf => NaN
  | PosInf, _ | _, PosInf => PosInf
  | NegInf, _ | _, NegInf => NegInf
  | Num x, Num y => Num (x + y)
  end.

Definition sub (a b : number) : number := add a (neg b).

Definition signed_inf (s : Z) : number :=
  if s =? 0 then NaN else if 0 <? s then PosInf else NegInf.

Definition mul (a b : number) : number :=
  match a, b with
  | NaN, _ | _, NaN => NaN
  | Num x, Num y => Num (x * y)
  | PosInf, Num y | Num y, PosInf => signed_inf y
  | NegInf, Num y | Num y, NegInf => signed_inf (- y)
  | PosInf, PosInf | NegInf, NegInf => PosInf
  | PosInf, NegInf | NegInf, PosInf => NegInf
  end.

(** [Math.ceil(a / b)].  The quotient of two numbers is only ever used
    under [Math.ceil], so the two operations are one here.  On integers
    [x], [y] with [y <> 0] the double [x / y] is the correctly rounded
    quotient, and for [|x| < 2^53] rounding never crosses an integer,
    so the ceiling of the double is the ceiling of the exact quotient,
    [- floor (- x / y)].  Division by zero gives an infinity, or NaN
    for [0 / 0]. *)
Definition ceil_div (a b : number) : number :=
  match a, b with
  | NaN, _ | _, NaN => NaN
  | Num x, Num y => if y =? 0 then signed_inf x else Num (- ((- x) / y))
  | Num _, (PosInf | NegInf) => Num 0
  | PosInf, Num y => if 0 <=? y then PosInf else NegInf
  | NegInf, Num y => if 0 <=? y then NegInf else PosInf
  | (PosInf | NegInf), (PosInf | NegInf) => NaN
  end.

(** ToInt32: NaN and the infinities become 0, an integer wraps around
    modulo 2^32 into [-2^31, 2^31). *)
Definition to_int32 (a : number) : Z :=
  match a with
  | Num z => (z + 2 ^ 31) mod 2 ^ 32 - 2 ^ 31
  | _ => 0
  end.

(** [a >> n], the sign-propagating right shift. *)
Definition shr (a : number) (n : Z) : Z :=
  Z.shiftr (to_int32 a) (Z.land n 31).

(** Truthiness of a number: [0] and NaN are falsy. *)
Definition truthy (a : number) : bool :=
  match a with
  | Num z => negb (z =? 0)
  | NaN => false
  | _ => true
  end.

(** Number to string, as a template literal does it.  The decimal
    rendering is JavaScript's for integers below 10^21 in absolute value;
    from 10^21 on JavaScript prints an exponent, which is not modelled,
    so a statement about the text of a number carries that bound. *)
Definition to_string (a : number) : string :=
  match a with
  | Num z => NilZero.string_of_int (Z.to_int z)
  | PosInf => "Infinity"
  | NegInf => "-Infinity"
  | NaN => "NaN"
  end.

End Js.

(* ================================================================== *)
(** ** Buffers *)
(* ================================================================== *)

(** A Node [Buffer] (and the [ArrayBuffer] under it) is its sequence of
    bytes. *)
Definition Buffer : Type := list byte.

Definition byte_value (b : byte) : Z := Z.of_N (Byte.to_N b).

(** Storing a number into a byte keeps its low 8 bits. *)
Definition byte_of_Z (z : Z) : byte :=
  match Byte.of_N (Z.to_N (Z.land z 255)) with
  | Some b => b
  | None => x00
  end.

Definition Buffer_length (b : Buffer) : Z := Z.of_nat (List.length b).

(** [buf[i]]: [undefined] outside of the buffer. *)
Definition Buffer_get (b : Buffer) (i : Z) : option Z :=
  if i <? 0 then None else option_map byte_value (nth_error b (Z.to_nat i)).

(** [const b = new Buffer(n); b.fill(v)]. *)
Definition Buffer_fill (n v : Z) : Buffer := repeat (byte_of_Z v) (Z.to_nat n).

(** [Buffer.concat([a, b])]. *)
Definition Buffer_concat (a b : Buffer) : Buffer := a ++ b.

(** The relative index of [slice]: NaN is 0, a negative offset counts
    from the end, and the result is clamped to [0, length]. *)
Definition adjustOffset (offset : Js.number) (length : Z) : Z :=
  match offset with
  | Js.NaN => 0
  | Js.NegInf => 0
  | Js.PosInf => length
  | Js.Num o => if o <? 0 then Z.max (o + length) 0 else Z.min o length
  end.

(** [buf.slice(start, end)]. *)
Definition Buffer_slice (b : Buffer) (start end_ : Js.number) : Buffer :=
  let s := adjustOffset start (Buffer_length b) in
  let e := adjustOffset end_ (Buffer_length b) in
  let n := if s <? e then e - s else 0 in
  firstn (Z.to_nat n) (skipn (Z.to_nat s) b).

(* ================================================================== *)
(** ** The padding steps of encrypt and decrypt *)
(* ================================================================== *)

(** The first continuation of [AesCrypto.encrypt]: "add padding if
    needed".  [padding] is the static flag of the mode's class. *)
Definition encrypt_add_padding (padding : bool) (data : Buffer) : Buffer :=
  if padding then
    let blockLength := 16 in
    let mod_ := blockLength - Z.rem (Buffer_length data) blockLength in
    let pad := Buffer_fill mod_ mod_ in
    Buffer_concat data pad
  else data.

(** The last continuation of [AesCrypto.decrypt]: "Remove padding". *)
Definition decrypt_remove_padding (padding : bool) (dec : Buffer) : Buffer :=
  if padding then
    let buf := dec in
    let paddingLength := Buffer_get buf (Buffer_length buf - 1) in
    Buffer_slice buf (Js.Num 0)
      (Js.sub (Js.Num (Buffer_length buf)) (Js.of_undefinable paddingLength))
  else dec.

(** The padding length of a buffer of [n] bytes. *)
Definition pad_length (n : Z) : Z := 16 - Z.rem n 16.

(** What the specification calls Unpad, in its own words: all bytes
    except the final [p] bytes, where [p] is the last byte (nothing is
    removed from an empty buffer, which has no last byte). *)
Definition Unpad_spec (dec : Buffer) : Buffer :=
  match List.last (map Some dec) None with
  | Some p => firstn (List.length dec - N.to_nat (Byte.to_N p)) dec
  | None => dec
  end.

(* ================================================================== *)
(** ** Strings *)
(* ================================================================== *)

(** Strings are sequences of 8-bit characters; the format names, usage
    tokens and algorithm names of the provider are ASCII. *)

Definition is_upper (c : ascii) : bool :=
  let n := nat_of_ascii c in ((65 <=? n) && (n <=? 90))%nat.

Definition lower_char (c : ascii) : ascii :=
  if is_upper c then ascii_of_nat (nat_of_ascii c + 32) else c.

(** [s.toLowerCase()]. *)
Fixpoint toLowerCase (s : string) : string :=
  match s with
  | EmptyString => EmptyString
  | String c s' => String (lower_char c) (toLowerCase s')
  end.

(** The class [\w] of a regular expression: letters, digits, underscore. *)
Definition is_word_char (c : ascii) : bool :=
  let n := nat_of_ascii c in
  (((65 <=? n) && (n <=? 90)) || ((97 <=? n) && (n <=? 122))
   || ((48 <=? n) && (n <=? 57)) || (n =? 95))%nat.

(** The longest prefix of word characters: what a greedy [\w+] takes. *)
Fixpoint word_prefix (s : string) : string :=
  match s with
  | String c s' => if is_word_char c then String c (word_prefix s') else EmptyString
  | EmptyString => EmptyString
  end.

(** [/AES-(\w+)/] tried at the first character of [s]: the captured group
    when the pattern matches there. *)
Definition match_AES_here (s : string) : option string :=
  match s with
  | String "A" (String "E" (String "S" (String "-" rest))) =>
      match word_prefix rest with
      | EmptyString => None
      | w => Some w
      end
  | _ => None
  end.

(** [/AES-(\w+)/.exec(s)]: the pattern is not anchored, the leftmost
    match wins; [None] is [null], [Some w] a match whose group 1 is [w]. *)
Fixpoint exec_AES (s : string) : option string :=
  match match_AES_here s with
  | Some w => Some w
  | None =>
      match s with
      | String _ s' => exec_AES s'
      | EmptyString => None
      end
  end.

(** A name of the form [AES-<MODE>], read as the whole name: the prefix
    [AES-] followed by a mode of one or more word characters and nothing
    else. *)
Definition is_AES_MODE_name (s : string) : bool :=
  match s with
  | String c1 (String c2 (String c3 (String c4 mode))) =>
      Ascii.eqb c1 "A" && Ascii.eqb c2 "E" && Ascii.eqb c3 "S" && Ascii.eqb c4 "-"
      && negb (String.eqb mode EmptyString) && String.eqb (word_prefix mode) mode
  | _ => false
  end.

(** [l.indexOf(x)]: the first index holding a string equal to [x], or -1. *)
Fixpoint indexOf_from (l : list string) (x : string) (i : Z) : Z :=
  match l with
  | [] => -1
  | y :: l' => if String.eqb y x then i else indexOf_from l' x (i + 1)
  end.

Definition indexOf (l : list string) (x : string) : Z := indexOf_from l x 0.

(* ================================================================== *)
(** ** Base64url *)
(* ================================================================== *)

(** The alphabet of base64url (RFC 4648, section 5). *)
Definition b64url_alphabet : string :=
  "ABCDEFGHIJKLMNOPQRSTUVWXYZabcdefghijklmnopqrstuvwxyz0123456789-_".

Definition b64url_char (i : N) : ascii :=
  match String.get (N.to_nat i) b64url_alphabet with
  | Some c => c
  | None => "A"%char
  end.

Definition b64url_index (c : ascii) : option N :=
  let n := N_of_ascii c in
  if ((65 <=? n) && (n <=? 90))%N then Some (n - 65)%N
  else if ((97 <=? n) && (n <=? 122))%N then Some (n - 71)%N
  else if ((48 <=? n) && (n <=? 57))%N then Some (n + 4)%N
  else if (n =? 45)%N then Some 62%N
  else if (n =? 95)%N then Some 63%N
  else None.

Definition byte_of_N (n : N) : byte :=
  match Byte.of_N n with
  | Some b => b
  | None => x00
  end.

(** Modelled from the spec: [Base64Url.encode] of webcrypto-core is not
    part of this file; the specification has export "base64url-encode the
    raw value".  Three bytes give four characters; a last group of one or
    two bytes gives two or three characters, and no padding character is
    written. *)
Fixpoint Base64Url_encode (l : Buffer) : string :=
  match l with
  | [] => EmptyString
  | [a] =>
      let x := Byte.to_N a in
      String (b64url_char (x / 4))
        (String (b64url_char ((x mod 4) * 16)) EmptyString)
  | [a; b] =>
      let x := Byte.to_N a in
      let y := Byte.to_N b in
      String (b64url_char (x / 4))
        (String (b64url_char ((x mod 4) * 16 + y / 16))
           (String (b64url_char ((y mod 16) * 4)) EmptyString))
  | a :: b :: c :: rest =>
      let x := Byte.to_N a in
      let y := Byte.to_N b in
      let z := Byte.to_N c in
      String (b64url_char (x / 4))
        (String (b64url_char ((x mod 4) * 16 + y / 16))
           (String (b64url_char ((y mod 16) * 4 + z / 64))
              (String (b64url_char (z mod 64)) (Base64Url_encode rest))))
  end%N.

(** Modelled from the spec: the decoding under [utils.b64_decode], which
    is not part of this file ("base64url-decode the [k] field to raw
    bytes").  On unpadded base64url text four characters give three
    bytes and a last group of two or three characters gives one or two
    bytes; a character outside of the alphabet, or a last group of a
    single character, is not base64url. *)
Fixpoint Base64Url_decode (s : string) : option Buffer :=
  match s with
  | EmptyString => Some []
  | String _ EmptyString => None
  | String c1 (String c2 EmptyString) =>
      match b64url_index c1, b64url_index c2 with
      | Some i1, Some i2 => Some [byte_of_N (i1 * 4 + i2 / 16)]
      | _, _ => None
      end
  | String c1 (String c2 (String c3 EmptyString)) =>
      match b64url_index c1, b64url_index c2, b64url_index c3 with
      | Some i1, Some i2, Some i3 =>
          Some [byte_of_N (i1 * 4 + i2 / 16);
                byte_of_N ((i2 mod 16) * 16 + i3 / 4)]
      | _, _, _ => None
      end
  | String c1 (String c2 (String c3 (String c4 rest))) =>
      match b64url_index c1, b64url_index c2, b64url_index c3,
            b64url_index c4, Base64Url_decode rest with
      | Some i1, Some i2, Some i3, Some i4, Some bytes =>
          Some (byte_of_N (i1 * 4 + i2 / 16)
                  :: byte_of_N ((i2 mod 16) * 16 + i3 / 4)
                  :: byte_of_N ((i3 mod 4) * 64 + i4) :: bytes)
      | _, _, _, _, _ => None
      end
  end%N.

(* ================================================================== *)
(** ** Errors and promises *)
(* ================================================================== *)

Inductive Error : Type :=
| WebCryptoError (message : string)
| TypeError (message : string)
| RangeError (message : string)
| NativeError (message : string).

Definition message (e : Error) : string :=
  match e with
  | WebCryptoError m | TypeError m | RangeError m | NativeError m => m
  end.

(** A settled promise.  A [throw] in the executor of [new Promise] or in
    a [then] continuation rejects the promise, so a throwing call is a
    rejected promise as well. *)
Inductive Promise (A : Type) : Type :=
| Resolved (a : A)
| Rejected (e : Error).

Arguments Resolved {A} a.
Arguments Rejected {A} e.

(** [p.then(f)]: a rejection passes through. *)
Definition then_ {A B : Type} (p : Promise A) (f : A -> Promise B) : Promise B :=
  match p with
  | Resolved a => f a
  | Rejected e => Rejected e
  end.

Notation "x <- p ;; k" := (then_ p (fun x => k))
  (at level 61, p at next level, right associativity).

Definition newline : string := String (ascii_of_nat 10) EmptyString.

(** [WebCryptoError.NOT_SUPPORTED] of webcrypto-core. *)
Definition NOT_SUPPORTED : string := "Method is not supported".

(** The error kinds of the specification, as the errors the code raises:
    [NotSupported] is the error of the base [wc2pk11], [KeyGenerationFailed]
    wraps the module's message, [UnsupportedFormat] is the error of the
    [default] case of [exportKey]. *)
Definition NotSupported : Error := WebCryptoError NOT_SUPPORTED.

Definition KeyGenerationFailed (native : string) : Error :=
  WebCryptoError ("Aes: Can not generate new key" ++ newline ++ native).

Definition UnsupportedFormat (format : string) : Error :=
  WebCryptoError ("Unknown format '" ++ format ++ "'").

(** Indexing the [null] result of a failed [exec]: the failure that the
    specification names [MalformedAlgorithmName]. *)
Definition MalformedAlgorithmName : Error :=
  TypeError "Cannot read property '1' of null".

(* ================================================================== *)
(** ** Data model *)
(* ================================================================== *)

(** [AesKeyGenParams] and [AesKeyAlgorithm]: a name and a bit length. *)
Module KeyAlgorithm.
Record t : Type := { name : string; length : Js.number }.
End KeyAlgorithm.

(** The algorithm descriptor of a cipher call ([Algorithm],
    [AesCbcParams], [AesGcmParams]); a mode reads only its own fields. *)
Module Algorithm.
Record t : Type := {
  name : string;
  iv : Buffer;
  additionalData : option Buffer;
  tagLength : option Js.number
}.
End Algorithm.

Module Jwk.
Record t : Type := {
  kty : option string;
  k : option string;
  alg : option string;
  ext : option bool
}.
End Jwk.

(** What [exportKey] resolves to and what [importKey] is given: a JSON
    record; a buffer of one byte per element (a Node [Buffer], a
    [Uint8Array]), whose [length] is its byte count; an [ArrayBuffer] or
    a [DataView], which has no [length]; a typed array of wider elements,
    whose [length] counts elements. *)
Inductive KeyData : Type :=
| KJwk (jwk : Jwk.t)
| KBuf (b : Buffer)
| KArrayBuffer (b : Buffer)
| KWide (bytesPerElement : Z) (b : Buffer).

Inductive ObjectClass : Type := PUBLIC_KEY | PRIVATE_KEY | SECRET_KEY.
Inductive KeyType : Type := RSA | ECDSA | AES.
Inductive KeyGenMechanism : Type := KeyGen_AES.

(** [ITemplate], with the attributes this file sets. *)
Module Template.
Record t : Type := {
  token : bool;
  sensitive : bool;
  class : ObjectClass;
  keyType : KeyType;
  label : string;
  id : Buffer;
  extractable : bool;
  derive : bool;
  sign : bool;
  verify : bool;
  encrypt : bool;
  decrypt : bool;
  wrap : bool;
  unwrap : bool;
  value : option KeyData;
  valueLen : option Z
}.

(** [template.valueLen = n]. *)
Definition set_valueLen (tpl : t) (n : Z) : t :=
  {| token := token tpl; sensitive := sensitive tpl; class := class tpl;
     keyType := keyType tpl; label := label tpl; id := id tpl;
     extractable := extractable tpl; derive := derive tpl;
     sign := sign tpl; verify := verify tpl; encrypt := encrypt tpl;
     decrypt := decrypt tpl; wrap := wrap tpl; unwrap := unwrap tpl;
     value := value tpl; valueLen := Some n |}.

(** [template.value = v]. *)
Definition set_value (tpl : t) (v : KeyData) : t :=
  {| token := token tpl; sensitive := sensitive tpl; class := class tpl;
     keyType := keyType tpl; label := label tpl; id := id tpl;
     extractable := extractable tpl; derive := derive tpl;
     sign := sign tpl; verify := verify tpl; encrypt := encrypt tpl;
     decrypt := decrypt tpl; wrap := wrap tpl; unwrap := unwrap tpl;
     value := Some v; valueLen := valueLen tpl |}.
End Template.

(** The attributes [getAttribute({ value: null, valueLen: null })] reads:
    the bytes of [value], the bytes of the whole [ArrayBuffer] under it
    ([value.buffer], which may be larger than the value), and
    [valueLen]. *)
Record KeyAttributes : Type := {
  value : Buffer;
  value_buffer : Buffer;
  valueLen : Z
}.

(** A key object of the module: reading its attributes may fail. *)
Record SecretKey : Type := { getAttribute : Promise KeyAttributes }.

(** [CryptoKey] of [../key]: the key object and its algorithm. *)
Module CryptoKey.
Record t : Type := { key : SecretKey; algorithm : KeyAlgorithm.t }.
End CryptoKey.

Record Version : Type := { major : Z; minor : Z }.

(** The two parameter classes of graphene for GCM. *)
Inductive GcmParamsClass : Type := AesGcmParams | AesGcm240Params.

Inductive MechanismParams : Type :=
| GcmParams (cls : GcmParamsClass) (iv : Buffer) (aad : option Buffer)
    (tagLength : Js.number)
| IvParams (iv : Buffer)
| NullParams.

Record IAlgorithm : Type := { mechanism : string; params : MechanismParams }.

(** A [Buffer] that the module answers with: its bytes, and the bytes of
    the whole [ArrayBuffer] under it, which [.buffer] reads. *)
Record ModuleBuffer : Type := { contents : Buffer; arraybuffer : Buffer }.

(** The cipher object of [createCipher] and [createDecipher]:
    [once(data, output, callback)], with the size of the output buffer;
    an error handed to the callback is a rejection. *)
Record Cipher : Type := { once : Buffer -> Js.number -> Promise ModuleBuffer }.

(** [new Buffer(size)]: a size that is NaN, infinite or negative is a
    RangeError.  The upper limit of the engine is not modelled. *)
Definition new_Buffer (size : Js.number) : Promise Js.number :=
  match size with
  | Js.Num n =>
      if n <? 0 then Rejected (RangeError "Invalid buffer size")
      else Resolved size
  | _ => Rejected (RangeError "Invalid buffer size")
  end.

(** The session of graphene-pk11, an external collaborator: its module
    version ([session.slot.module.cryptokiVersion]) and the calls the
    provider makes.  [generateKey] is the outcome handed to the callback;
    [create], [createCipher] and [createDecipher] may throw. *)
Module Session.
Record t : Type := {
  cryptokiVersion : Version;
  generateKey : KeyGenMechanism -> Template.t -> Promise SecretKey;
  create : Template.t -> Promise SecretKey;
  createCipher : IAlgorithm -> SecretKey -> Promise Cipher;
  createDecipher : IAlgorithm -> SecretKey -> Promise Cipher
}.
End Session.

(** [process.env], as far as the template builder reads it. *)
Record ProcessEnv : Type := {
  WEBCRYPTO_PKCS11_TOKEN : option string;
  WEBCRYPTO_PKCS11_SENSITIVE : option string
}.

(** [!!v] for an environment variable: set and not empty. *)
Definition env_flag (v : option string) : bool :=
  match v with
  | Some (String _ _) => true
  | _ => false
  end.

(** The static methods of [BaseCrypto] ([../base]) that the provider
    calls through [super] before its own work: each resolves or rejects. *)
Module BaseCrypto.
Record t : Type := {
  generateKey : KeyAlgorithm.t -> bool -> list string -> Promise unit;
  exportKey : string -> CryptoKey.t -> Promise unit;
  importKey : string -> KeyData -> Algorithm.t -> bool -> list string -> Promise unit;
  encrypt : Algorithm.t -> CryptoKey.t -> Buffer -> Promise unit;
  decrypt : Algorithm.t -> CryptoKey.t -> Buffer -> Promise unit
}.
End BaseCrypto.

(** Modelled from the spec: [utils.b64_decode] of [../utils] is not part
    of this file; the specification has import "base64url-decode the [k]
    field to raw bytes".  A missing field or text that is not base64url
    makes the call throw. *)
Definition b64_decode (b64url : option string) : Promise Buffer :=
  match b64url with
  | Some s =>
      match Base64Url_decode s with
      | Some b => Resolved b
      | None => Rejected (NativeError "Invalid base64url text")
      end
  | None => Rejected (TypeError "Cannot read property 'length' of undefined")
  end.

(* ================================================================== *)
(** ** The provider *)
(* ================================================================== *)

Section Provider.

(** The collaborators of the file: the process environment, the two
    helpers of [../utils] that are used as given, and the base class. *)
Variable env : ProcessEnv.
Variable GUID : Session.t -> Buffer.
Variable PrepareData : Buffer -> Buffer.
Variable super : BaseCrypto.t.

(** [new CryptoKey(key, algorithm)] of [../key], where the code has a
    [catch] for what it throws: the constructor either throws or builds
    the key from its two arguments.  [CryptoKey_throws] tells which. *)
Variable CryptoKey_throws : SecretKey -> KeyAlgorithm.t -> option Error.

Definition new_CryptoKey (key : SecretKey) (algorithm : KeyAlgorithm.t)
    : Promise CryptoKey.t :=
  match CryptoKey_throws key algorithm with
  | Some e => Rejected e
  | None => Resolved {| CryptoKey.key := key; CryptoKey.algorithm := algorithm |}
  end.

Definition create_template (session : Session.t) (alg : KeyAlgorithm.t)
    (extractable : bool) (keyUsages : list string) : Template.t :=
  let id := GUID session in
  {| Template.token := env_flag (WEBCRYPTO_PKCS11_TOKEN env);
     Template.sensitive := env_flag (WEBCRYPTO_PKCS11_SENSITIVE env);
     Template.class := SECRET_KEY;
     Template.keyType := AES;
     Template.label := "AES-" ++ Js.to_string (KeyAlgorithm.length alg);
     Template.id := id;
     Template.extractable := extractable;
     Template.derive := false;
     Template.sign := negb (indexOf keyUsages "sign" =? -1);
     Template.verify := negb (indexOf keyUsages "verify" =? -1);
     Template.encrypt := negb (indexOf keyUsages "encrypt" =? -1);
     Template.decrypt := negb (indexOf keyUsages "decrypt" =? -1);
     Template.wrap := negb (indexOf keyUsages "wrapKey" =? -1);
     Template.unwrap := negb (indexOf keyUsages "unwrapKey" =? -1);
     Template.value := None;
     Template.valueLen := None |}.

(** A class of the hierarchy, as the static members that [this]
    resolves: the [padding] flag and the mechanism mapper. *)
Record AesClass : Type := {
  padding : bool;
  wc2pk11 : Algorithm.t -> option Session.t -> Promise IAlgorithm
}.

(** [AesCrypto.getOutputBufferSize]. *)
Definition getOutputBufferSize (keyAlg : KeyAlgorithm.t) (enc : bool)
    (dataSize : Js.number) : Js.number :=
  let len := Js.Num (Js.shr (KeyAlgorithm.length keyAlg) 3) in
  if enc then Js.add (Js.mul (Js.ceil_div dataSize len) len) len
  else dataSize.

(** The template [generateKey] hands to the module. *)
Definition generateKey_template (algorithm : KeyAlgorithm.t)
    (extractable : bool) (keyUsages : list string) (session : Session.t)
    : Template.t :=
  let template := create_template session algorithm extractable keyUsages in
  Template.set_valueLen template (Js.shr (KeyAlgorithm.length algorithm) 3).

(** [generateKey]: the callback of the module wraps its error in a
    WebCryptoError, or builds the key; what the construction of the key
    throws is caught and rejects the promise as it is. *)
Definition generateKey (algorithm : KeyAlgorithm.t) (extractable : bool)
    (keyUsages : list string) (session : Session.t) : Promise CryptoKey.t :=
  _ <- BaseCrypto.generateKey super algorithm extractable keyUsages ;;
  let template := generateKey_template algorithm extractable keyUsages session in
  match Session.generateKey session KeyGen_AES template with
  | Rejected err => Rejected (KeyGenerationFailed (message err))
  | Resolved aesKey => new_CryptoKey aesKey algorithm
  end.

(** The [switch] of [exportKey] on the attributes read from the key. *)
Definition exportKey_switch (format : string) (key : CryptoKey.t)
    (template : KeyAttributes) : Promise KeyData :=
  let f := toLowerCase format in
  if String.eqb f "jwk" then
    match exec_AES (KeyAlgorithm.name (CryptoKey.algorithm key)) with
    | None => Rejected MalformedAlgorithmName
    | Some aes =>
        let jwk :=
          {| Jwk.kty := Some "oct"%string;
             Jwk.k := Some (Base64Url_encode (value template));
             Jwk.alg :=
               Some ("A" ++ Js.to_string
                              (Js.mul (Js.Num (valueLen template)) (Js.Num 8))
                         ++ aes)%string;
             Jwk.ext := Some true |} in
        Resolved (KJwk jwk)
    end
  else if String.eqb f "raw" then
    Resolved (KArrayBuffer (value_buffer template))
  else
    Rejected (UnsupportedFormat format).

Definition exportKey (format : string) (key : CryptoKey.t) : Promise KeyData :=
  _ <- BaseCrypto.exportKey super format key ;;
  template <- getAttribute (CryptoKey.key key) ;;
  exportKey_switch format key template.

(** "get key value": the first statement of [importKey].  The cast
    [keyData as Buffer] does nothing at run time. *)
Definition importKey_value (format : string) (keyData : KeyData) : Promise KeyData :=
  if String.eqb format "jwk" then
    b <- b64_decode (match keyData with
                     | KJwk jwk => Jwk.k jwk
                     | _ => None
                     end) ;;
    Resolved (KBuf b)
  else
    Resolved keyData.

(** [value.length]: the byte count of a buffer of bytes, the element
    count of a wider typed array, [undefined] on a record, an
    [ArrayBuffer] or a [DataView]. *)
Definition KeyData_length (v : KeyData) : option Z :=
  match v with
  | KBuf b => Some (Buffer_length b)
  | KWide bytesPerElement b => Some (Buffer_length b / bytesPerElement)
  | KJwk _ | KArrayBuffer _ => None
  end.

(** "prepare key algorithm" and "create session object": the rest of
    [importKey], once the key value is known. *)
Definition importKey_create (value : KeyData) (algorithm : Algorithm.t)
    (extractable : bool) (keyUsages : list string) (session : Session.t)
    : Promise CryptoKey.t :=
  let aesAlg :=
    {| KeyAlgorithm.name := Algorithm.name algorithm;
       KeyAlgorithm.length :=
         Js.mul (Js.of_undefinable (KeyData_length value)) (Js.Num 8) |} in
  let template := create_template session aesAlg extractable keyUsages in
  let template := Template.set_value template value in
  sessionObject <- Session.create session template ;;
  Resolved {| CryptoKey.key := sessionObject; CryptoKey.algorithm := aesAlg |}.

Definition importKey (format : string) (keyData : KeyData)
    (algorithm : Algorithm.t) (extractable : bool) (keyUsages : list string)
    (session : Session.t) : Promise CryptoKey.t :=
  _ <- BaseCrypto.importKey super format keyData algorithm extractable keyUsages ;;
  value <- importKey_value format keyData ;;
  importKey_create value algorithm extractable keyUsages session.

(** [create(mech, key).once(data, new Buffer(size), callback)] with
    [resolve(data2.buffer)]: the cipher object is created first, then the
    output buffer is allocated, then the module is called, and the
    promise resolves with the whole [ArrayBuffer] under the result. *)
Definition once_call (create : IAlgorithm -> SecretKey -> Promise Cipher)
    (mech : IAlgorithm) (key : SecretKey) (data : Buffer) (size : Js.number)
    : Promise Buffer :=
  cipher <- create mech key ;;
  output <- new_Buffer size ;;
  data2 <- once cipher data output ;;
  Resolved (arraybuffer data2).

Definition encrypt (this : AesClass) (algorithm : Algorithm.t)
    (key : CryptoKey.t) (data : Buffer) (session : Session.t) : Promise Buffer :=
  _ <- BaseCrypto.encrypt super algorithm key data ;;
  let data := encrypt_add_padding (padding this) data in
  mech <- wc2pk11 this algorithm None ;;
  once_call (Session.createCipher session) mech (CryptoKey.key key) data
    (getOutputBufferSize (CryptoKey.algorithm key) true
       (Js.Num (Buffer_length data))).

Definition decrypt (this : AesClass) (algorithm : Algorithm.t)
    (key : CryptoKey.t) (data : Buffer) (session : Session.t) : Promise Buffer :=
  _ <- BaseCrypto.decrypt super algorithm key data ;;
  mech <- wc2pk11 this algorithm None ;;
  dec <- once_call (Session.createDecipher session) mech (CryptoKey.key key) data
           (getOutputBufferSize (CryptoKey.algorithm key) false
              (Js.Num (Buffer_length data))) ;;
  Resolved (decrypt_remove_padding (padding this) dec).

(** The abstract base [AesCrypto]: no padding, no mechanism. *)
Definition AesCrypto : AesClass :=
  {| padding := false;
     wc2pk11 := fun _ _ => Rejected NotSupported |}.

(** The parameter class [AesGCM.wc2pk11] chooses. *)
Definition AesGCM_params_class (session : option Session.t) : GcmParamsClass :=
  match session with
  | Some s =>
      if (major (Session.cryptokiVersion s) >=? 2)
         && (minor (Session.cryptokiVersion s) >=? 40)
      then AesGcm240Params
      else AesGcmParams
  | None => AesGcmParams
  end.

Definition AesGCM_wc2pk11 (alg : Algorithm.t) (session : option Session.t)
    : Promise IAlgorithm :=
  let aad := option_map PrepareData (Algorithm.additionalData alg) in
  let AesGcmParamsClass := AesGCM_params_class session in
  let tagLength :=
    match Algorithm.tagLength alg with
    | Some n => if Js.truthy n then n else Js.Num 128
    | None => Js.Num 128
    end in
  let params := GcmParams AesGcmParamsClass (PrepareData (Algorithm.iv alg)) aad tagLength in
  Resolved {| mechanism := "AES_GCM"; params := params |}.

Definition AesGCM : AesClass :=
  {| padding := padding AesCrypto; wc2pk11 := AesGCM_wc2pk11 |}.

Definition AesCBC : AesClass :=
  {| padding := padding AesCrypto;
     wc2pk11 := fun alg _ =>
       Resolved {| mechanism := "AES_CBC_PAD";
                   params := IvParams (PrepareData (Algorithm.iv alg)) |} |}.

Definition AesECB : AesClass :=
  {| padding := true;
     wc2pk11 := fun _ _ =>
       Resolved {| mechanism := "AES_ECB"; params := NullParams |} |}.

End Provider.

(* ================================================================== *)
(** ** The specification's formulas *)
(* ================================================================== *)

(** [ceil(a / b)] for a positive [b], in integer arithmetic. *)
Definition ceil_quotient (a b : Z) : Z := (a + b - 1) / b.

(** The output buffer size of the specification, for a key of [L] bits:
    [ceil(dataSize / len) * len + len] with [len = L / 8] to encrypt,
    [dataSize] to decrypt. *)
Definition OutputBufferSize_spec (L : Z) (enc : bool) (dataSize : Z) : Z :=
  let len := L / 8 in
  if enc then ceil_quotient dataSize len * len + len else dataSize.



(** "Version at least [M.m]": versions compare by major, then by minor. *)
Definition version_at_least (v : Version) (M m : Z) : bool :=
  (M <? major v) || ((major v =? M) && (m <=? minor v)).

(** The module keeps the value it is given: creating an object from a
    template that carries the bytes [v] gives a key object whose value
    attribute reads [v]. *)
Definition module_stores_value (session : Session.t) : Prop :=
  forall (tpl : Template.t) (v : Buffer),
    Template.value tpl = Some (KBuf v) ->
    exists sk attrs,
      Session.create session tpl = Resolved sk
      /\ getAttribute sk = Resolved attrs
      /\ value attrs = v
      /\ valueLen attrs = Buffer_length v.

(* ================================================================== *)
(** ** Sample collaborators *)
(* ================================================================== *)

(** A decrypted block whose last byte, 20, exceeds its 16 bytes. *)
Definition overlong_padding_block : Buffer :=
  [x00; x01; x02; x03; x04; x05; x06; x07;
   x08; x09; x0a; x0b; x0c; x0d; x0e; x14].

(** A 128-bit key value. *)
Definition sample_key_value : Buffer :=
  [x00; x11; x22; x33; x44; x55; x66; x77;
   x88; x99; xaa; xbb; xcc; xdd; xee; xff].

Definition sample_env : ProcessEnv :=
  {| WEBCRYPTO_PKCS11_TOKEN := None; WEBCRYPTO_PKCS11_SENSITIVE := None |}.

Definition sample_GUID (_ : Session.t) : Buffer := [x01; x02; x03; x04].

(** A base class whose checks pass. *)
Definition passing_base : BaseCrypto.t :=
  {| BaseCrypto.generateKey := fun _ _ _ => Resolved tt;
     BaseCrypto.exportKey := fun _ _ => Resolved tt;
     BaseCrypto.importKey := fun _ _ _ _ _ => Resolved tt;
     BaseCrypto.encrypt := fun _ _ _ => Resolved tt;
     BaseCrypto.decrypt := fun _ _ _ => Resolved tt |}.

(** A key object holding the bytes [v]. *)
Definition key_object (v : Buffer) : SecretKey :=
  {| getAttribute :=
       Resolved {| value := v; value_buffer := v; valueLen := Buffer_length v |} |}.

(** A session of a module of the given interface version that stores the
    bytes it is given and refuses a value that is no buffer. *)
Definition sample_session (M m : Z) : Session.t :=
  {| Session.cryptokiVersion := {| major := M; minor := m |};
     Session.generateKey := fun _ _ => Rejected (NativeError "CKR_FUNCTION_FAILED");
     Session.create := fun tpl =>
       match Template.value tpl with
       | Some (KBuf v) => Resolved (key_object v)
       | _ => Rejected (NativeError "CKR_TEMPLATE_INCOMPLETE")
       end;
     Session.createCipher := fun _ _ => Rejected (NativeError "CKR_FUNCTION_FAILED");
     Session.createDecipher := fun _ _ => Rejected (NativeError "CKR_FUNCTION_FAILED") |}.

Definition sample_algorithm (name : string) : Algorithm.t :=
  {| Algorithm.name := name; Algorithm.iv := [];
     Algorithm.additionalData := None; Algorithm.tagLength := None |}.

(** A 128-bit key named [name] that holds [sample_key_value]. *)
Definition sample_key (name : string) : CryptoKey.t :=
  {| CryptoKey.key := key_object sample_key_value;
     CryptoKey.algorithm :=
       {| KeyAlgorithm.name := name; KeyAlgorithm.length := Js.Num 128 |} |}.

(** A cipher that answers with the bytes it is given in reverse order, in
    a buffer that fills its [ArrayBuffer]. *)
Definition mirror_cipher : Cipher :=
  {| once := fun data _ =>
       Resolved {| contents := rev data; arraybuffer := rev data |} |}.

(** A cipher that answers with the reversed bytes as the first part of a
    larger [ArrayBuffer], the output buffer it was given. *)
Definition pooled_cipher : Cipher :=
  {| once := fun data _ =>
       Resolved {| contents := rev data;
                   arraybuffer := rev data ++ [x00; x00; x00; x00] |} |}.

(** A session whose cipher reverses the bytes it is given, and whose
    decipher reverses them again. *)
Definition mirror_session : Session.t :=
  {| Session.cryptokiVersion := {| major := 2; minor := 40 |};
     Session.generateKey := fun _ _ => Resolved (key_object sample_key_value);
     Session.create := fun tpl =>
       match Template.value tpl with
       | Some (KBuf v) => Resolved (key_object v)
       | _ => Rejected (NativeError "CKR_TEMPLATE_INCOMPLETE")
       end;
     Session.createCipher := fun _ _ => Resolved mirror_cipher;
     Session.createDecipher := fun _ _ => Resolved mirror_cipher |}.

(** A session whose ciphers answer with a part of a larger buffer. *)
Definition pooled_session : Session.t :=
  {| Session.cryptokiVersion := {| major := 2; minor := 40 |};
     Session.generateKey := fun _ _ => Resolved (key_object sample_key_value);
     Session.create := fun _ => Rejected (NativeError "CKR_FUNCTION_FAILED");
     Session.createCipher := fun _ _ => Resolved pooled_cipher;
     Session.createDecipher := fun _ _ => Resolved pooled_cipher |}.

(** A key object of a sensitive key: its value cannot be read. *)
Definition sensitive_key_object : SecretKey :=
  {| getAttribute := Rejected (NativeError "CKR_ATTRIBUTE_SENSITIVE") |}.

(* ================================================================== *)
(** ** Bytes and buffers *)
(* ================================================================== *)

Lemma byte_value_range (b : byte) : 0 <= byte_value b <= 255.
Proof.
  unfold byte_value. pose proof (Byte.to_N_bounded b). lia.
Qed.

Lemma byte_of_N_to_N (n : N) : (n < 256)%N -> Byte.to_N (byte_of_N n) = n.
Proof.
  intros Hn. unfold byte_of_N.
  destruct (Byte.of_N n) as [b|] eqn:E.
  - now apply Byte.to_of_N.
  - apply Byte.of_N_None_iff in E. lia.
Qed.

Lemma byte_of_N_of_byte (b : byte) : byte_of_N (Byte.to_N b) = b.
Proof. unfold byte_of_N. now rewrite Byte.of_to_N. Qed.

Lemma byte_value_of_Z (z : Z) : 0 <= z < 256 -> byte_value (byte_of_Z z) = z.
Proof.
  intros Hz. unfold byte_value, byte_of_Z.
  change 255 with (Z.ones 8). rewrite Z.land_ones by lia.
  rewrite Z.mod_small by (change (2 ^ 8) with 256; lia).
  fold (byte_of_N (Z.to_N z)). rewrite byte_of_N_to_N by lia. lia.
Qed.

Lemma Buffer_length_nonneg (b : Buffer) : 0 <= Buffer_length b.
Proof. unfold Buffer_length. lia. Qed.

Lemma Buffer_length_app (a b : Buffer) :
  Buffer_length (a ++ b) = Buffer_length a + Buffer_length b.
Proof. unfold Buffer_length. rewrite length_app. lia. Qed.

Lemma Buffer_length_fill (n v : Z) : 0 <= n -> Buffer_length (Buffer_fill n v) = n.
Proof. intros Hn. unfold Buffer_length, Buffer_fill. rewrite repeat_length. lia. Qed.

(** The last byte of a buffer that ends in [b]. *)
Lemma Buffer_get_last (front : Buffer) (b : byte) :
  Buffer_get (front ++ [b]) (Buffer_length (front ++ [b]) - 1) = Some (byte_value b).
Proof.
  unfold Buffer_get. rewrite Buffer_length_app. unfold Buffer_length. simpl List.length.
  destruct (Z.ltb_spec (Z.of_nat (List.length front) + Z.of_nat 1 - 1) 0) as [H|H]; [lia|].
  replace (Z.to_nat (Z.of_nat (List.length front) + Z.of_nat 1 - 1)) with (List.length front + 0)%nat by lia.
  rewrite nth_error_app2 by lia.
  replace (List.length front + 0 - List.length front)%nat with 0%nat by lia.
  reflexivity.
Qed.

(** [slice(0, e)] keeps a prefix. *)
Lemma Buffer_slice_prefix (b : Buffer) (e : Js.number) :
  Buffer_slice b (Js.Num 0) e = firstn (Z.to_nat (adjustOffset e (Buffer_length b))) b.
Proof.
  unfold Buffer_slice. pose proof (Buffer_length_nonneg b) as Hb.
  assert (Hs : adjustOffset (Js.Num 0) (Buffer_length b) = 0).
  { unfold adjustOffset. simpl. lia. }
  rewrite Hs. simpl skipn.
  destruct (Z.ltb_spec 0 (adjustOffset e (Buffer_length b))) as [H|H].
  - now rewrite Z.sub_0_r.
  - replace (Z.to_nat (adjustOffset e (Buffer_length b))) with 0%nat by lia. reflexivity.
Qed.

Lemma pad_length_range (n : Z) : 0 <= n -> 1 <= pad_length n <= 16.
Proof.
  intros Hn. unfold pad_length. rewrite Z.rem_mod_nonneg by lia.
  pose proof (Z.mod_pos_bound n 16). lia.
Qed.

Lemma encrypt_add_padding_eq (data : Buffer) :
  encrypt_add_padding true data
  = data ++ repeat (byte_of_Z (pad_length (Buffer_length data)))
              (Z.to_nat (pad_length (Buffer_length data))).
Proof. reflexivity. Qed.

(** What [decrypt_remove_padding] keeps of a buffer that ends in [b]:
    a prefix whose length is fixed by the buffer's length and [b] alone. *)
Lemma decrypt_remove_padding_last (front : Buffer) (b : byte) :
  let n := Buffer_length (front ++ [b]) in
  let p := byte_value b in
  decrypt_remove_padding true (front ++ [b])
  = firstn (Z.to_nat (if n <? p then Z.max (2 * n - p) 0 else n - p)) (front ++ [b]).
Proof.
  intros n p. unfold decrypt_remove_padding.
  rewrite Buffer_get_last. fold n p. rewrite Buffer_slice_prefix. fold n.
  simpl Js.of_undefinable. unfold Js.sub, Js.neg, Js.add, adjustOffset.
  pose proof (byte_value_range b) as Hp. fold p in Hp.
  assert (Hn : 0 <= n) by apply Buffer_length_nonneg.
  destruct (Z.ltb_spec (n + - p) 0), (Z.ltb_spec n p); try lia; f_equal; lia.
Qed.

Lemma Buffer_get_last_inv (dec : Buffer) (p : Z) :
  Buffer_get dec (Buffer_length dec - 1) = Some p ->
  exists front b, dec = front ++ [b] /\ byte_value b = p.
Proof.
  intros H.
  destruct (exists_last (l := dec)) as (front & b & ->).
  - intros ->. discriminate H.
  - rewrite Buffer_get_last in H. injection H as H. now exists front, b.
Qed.

Lemma Unpad_spec_last (front : Buffer) (b : byte) :
  Unpad_spec (front ++ [b])
  = firstn (List.length (front ++ [b]) - Z.to_nat (byte_value b)) (front ++ [b]).
Proof.
  unfold Unpad_spec. rewrite map_app. simpl map. rewrite last_last.
  unfold byte_value. do 2 f_equal. lia.
Qed.

(** A buffer followed by [m] bytes of value [m]: the unpadding step
    removes exactly these. *)
Lemma remove_padding_of_fill (d : Buffer) (m : Z) :
  1 <= m <= 255 ->
  decrypt_remove_padding true (Buffer_concat d (Buffer_fill m m)) = d.
Proof.
  intros Hm. unfold Buffer_concat, Buffer_fill.
  replace (Z.to_nat m) with (Z.to_nat (m - 1) + 1)%nat by lia.
  rewrite repeat_app. simpl (repeat _ 1). rewrite app_assoc.
  rewrite decrypt_remove_padding_last.
  rewrite byte_value_of_Z by lia.
  rewrite !Buffer_length_app.
  assert (Hfill : Buffer_length (repeat (byte_of_Z m) (Z.to_nat (m - 1))) = m - 1).
  { unfold Buffer_length. rewrite repeat_length. lia. }
  rewrite Hfill. change (Buffer_length [byte_of_Z m]) with 1.
  pose proof (Buffer_length_nonneg d) as Hd.
  destruct (Z.ltb_spec (Buffer_length d + (m - 1) + 1) m) as [H|H]; [lia|].
  replace (Z.to_nat (Buffer_length d + (m - 1) + 1 - m)) with (List.length d + 0)%nat
    by (unfold Buffer_length; lia).
  rewrite <- app_assoc. rewrite firstn_app_2. simpl. apply app_nil_r.
Qed.

(** C1. Unpadding the padded buffer gives the buffer back: for every
    byte buffer [d], the padding that encrypt appends under the padding
    flag (block size 16) is exactly what the unpadding step of decrypt
    removes, [Unpad(Pad(d, 16)) = d]. *)
Theorem unpad_pad_roundtrip (d : Buffer) :
  decrypt_remove_padding true (encrypt_add_padding true d) = d.
Proof.
  pose proof (pad_length_range (Buffer_length d) (Buffer_length_nonneg d)) as Hm.
  unfold encrypt_add_padding.
  fold (pad_length (Buffer_length d)).
  set (m := pad_length (Buffer_length d)) in *.
  apply remove_padding_of_fill. lia.
Qed.

(** C2. Padding with block size 16 appends exactly
    [mod = 16 - (len(data) mod 16)] bytes, each of value [mod]; [mod] is
    between 1 and 16 and never 0, and a block-aligned buffer gets a whole
    block of padding. *)
Theorem pad_appends_mod_bytes (data : Buffer) :
  let mod_ := 16 - Buffer_length data mod 16 in
  encrypt_add_padding true data = data ++ repeat (byte_of_Z mod_) (Z.to_nat mod_)
  /\ byte_value (byte_of_Z mod_) = mod_
  /\ 1 <= mod_ <= 16
  /\ Buffer_length (encrypt_add_padding true data) = Buffer_length data + mod_
  /\ (Buffer_length data mod 16 = 0 <-> mod_ = 16).
Proof.
  intros mod_.
  pose proof (Buffer_length_nonneg data) as Hd.
  assert (Hmod : mod_ = pad_length (Buffer_length data)).
  { unfold mod_, pad_length. now rewrite Z.rem_mod_nonneg by lia. }
  pose proof (pad_length_range _ Hd) as Hr. rewrite <- Hmod in Hr.
  split; [|split; [|split; [|split]]].
  - rewrite encrypt_add_padding_eq. now rewrite <- Hmod.
  - apply byte_value_of_Z. lia.
  - exact Hr.
  - rewrite encrypt_add_padding_eq, <- Hmod, Buffer_length_app.
    unfold Buffer_length at 2. rewrite repeat_length. lia.
  - unfold mod_. lia.
Qed.

(** C3 (as the code has it). When the last byte [p] of the decrypted
    buffer is at most the buffer's length, the unpadding step of decrypt
    returns all bytes except the final [p] bytes; nothing but the last
    byte and the length is looked at, so the trailing bytes are not
    checked to equal [p]. *)
Theorem unpad_trusts_last_byte (dec : Buffer) (p : Z) :
  Buffer_get dec (Buffer_length dec - 1) = Some p ->
  p <= Buffer_length dec ->
  decrypt_remove_padding true dec = firstn (Z.to_nat (Buffer_length dec - p)) dec
  /\ decrypt_remove_padding true dec = Unpad_spec dec.
Proof.
  intros Hlast Hp.
  destruct (Buffer_get_last_inv _ _ Hlast) as (front & b & -> & <-).
  rewrite Unpad_spec_last, decrypt_remove_padding_last.
  pose proof (byte_value_range b) as Hb.
  destruct (Z.ltb_spec (Buffer_length (front ++ [b])) (byte_value b)) as [H|H]; [lia|].
  split; [reflexivity|]. f_equal. unfold Buffer_length. lia.
Qed.

Lemma unpad_trusts_last_byte_witness :
  decrypt_remove_padding true [x0a; x0b; x0c; x09; x02] = [x0a; x0b; x0c]
  /\ decrypt_remove_padding true [x0a; x0b; x0c; x09; x02]
     = Unpad_spec [x0a; x0b; x0c; x09; x02].
Proof.
  apply (unpad_trusts_last_byte [x0a; x0b; x0c; x09; x02] 2).
  - reflexivity.
  - vm_compute. discriminate.
Defined.

(** A decrypted block whose last byte, 20, exceeds its 16 bytes: the
    negative end of the slice counts from the end of the buffer, and 12
    bytes are kept where dropping the final 20 bytes leaves none. *)
Lemma unpad_overlong_counterexample :
  decrypt_remove_padding true overlong_padding_block
  = [x00; x01; x02; x03; x04; x05; x06; x07; x08; x09; x0a; x0b]
  /\ Unpad_spec overlong_padding_block = []
  /\ decrypt_remove_padding true overlong_padding_block
     <> Unpad_spec overlong_padding_block.
Proof.
  repeat split; try reflexivity. vm_compute. discriminate.
Qed.

(** The prefix that is kept when the last byte exceeds the length. *)
Lemma unpad_overlong (front : Buffer) (b : byte) :
  Buffer_length (front ++ [b]) < byte_value b ->
  decrypt_remove_padding true (front ++ [b])
  = firstn (Z.to_nat (2 * Buffer_length (front ++ [b]) - byte_value b)) (front ++ [b]).
Proof.
  intros H. rewrite decrypt_remove_padding_last.
  destruct (Z.ltb_spec (Buffer_length (front ++ [b])) (byte_value b)) as [H'|H']; [|lia].
  f_equal. lia.
Qed.

(** An empty buffer has no last byte; the slice ends at NaN, that is 0. *)
Lemma unpad_empty : decrypt_remove_padding true [] = [].
Proof. reflexivity. Qed.

(** Trailing bytes that differ from the last byte are removed all the same. *)
Example unpad_unchecked_padding :
  decrypt_remove_padding true [x61; x62; x63; x00; xff; x03] = [x61; x62; x63].
Proof. reflexivity. Qed.

(** Without the padding flag both steps leave the buffer alone. *)
Lemma no_padding_flag (d : Buffer) :
  encrypt_add_padding false d = d /\ decrypt_remove_padding false d = d.
Proof. split; reflexivity. Qed.

(* ================================================================== *)
(** ** Output buffer size *)
(* ================================================================== *)

Lemma shr3_is_div8 (L : Z) : 0 <= L < 2 ^ 31 -> Js.shr (Js.Num L) 3 = L / 8.
Proof.
  intros HL. unfold Js.shr, Js.to_int32.
  change (Z.land 3 31) with 3.
  rewrite Z.shiftr_div_pow2 by lia. change (2 ^ 3) with 8.
  f_equal.
  assert (H : (L + 2 ^ 31) mod 2 ^ 32 = L + 2 ^ 31) by (apply Z.mod_small; lia).
  lia.
Qed.

Lemma ceil_quotient_floor (a b : Z) : 0 < b -> - ((- a) / b) = ceil_quotient a b.
Proof.
  intros Hb. unfold ceil_quotient.
  pose proof (Z.div_mod (- a) b ltac:(lia)) as H1.
  pose proof (Z.mod_pos_bound (- a) b Hb) as H2.
  pose proof (Z.div_mod (a + b - 1) b ltac:(lia)) as H3.
  pose proof (Z.mod_pos_bound (a + b - 1) b Hb) as H4.
  nia.
Qed.

(** The ceiling: the least multiple count that covers [a]. *)
Lemma ceil_quotient_spec (a b : Z) :
  0 < b -> (ceil_quotient a b - 1) * b < a <= ceil_quotient a b * b.
Proof.
  intros Hb. unfold ceil_quotient.
  pose proof (Z.div_mod (a + b - 1) b ltac:(lia)) as H3.
  pose proof (Z.mod_pos_bound (a + b - 1) b Hb) as H4.
  nia.
Qed.

(** C4. For a key algorithm of [L] bits and a data size [dataSize], the
    output buffer size is [ceil(dataSize / len) * len + len] to encrypt
    and [dataSize] to decrypt, where [len = L / 8] is the key's length in
    bytes and not the block length of 16. *)
Theorem output_buffer_size (keyAlg : KeyAlgorithm.t) (L dataSize : Z) :
  KeyAlgorithm.length keyAlg = Js.Num L ->
  8 <= L < 2 ^ 31 ->
  0 <= dataSize <= 2 ^ 52 ->
  getOutputBufferSize keyAlg true (Js.Num dataSize)
  = Js.Num (OutputBufferSize_spec L true dataSize)
  /\ getOutputBufferSize keyAlg false (Js.Num dataSize)
     = Js.Num (OutputBufferSize_spec L false dataSize)
  /\ OutputBufferSize_spec L false dataSize = dataSize.
Proof.
  intros HL Hrange Hsize. unfold getOutputBufferSize, OutputBufferSize_spec.
  rewrite HL, shr3_is_div8 by lia.
  assert (Hlen : 0 < L / 8) by (apply Z.div_str_pos; lia).
  split; [|split; reflexivity].
  unfold Js.ceil_div, Js.mul, Js.add.
  destruct (Z.eqb_spec (L / 8) 0) as [E|_]; [lia|].
  now rewrite ceil_quotient_floor.
Qed.

Lemma output_buffer_size_witness :
  getOutputBufferSize
    {| KeyAlgorithm.name := "AES-ECB"; KeyAlgorithm.length := Js.Num 128 |}
    true (Js.Num 20) = Js.Num 48
  /\ getOutputBufferSize
       {| KeyAlgorithm.name := "AES-ECB"; KeyAlgorithm.length := Js.Num 128 |}
       false (Js.Num 20) = Js.Num 20
  /\ OutputBufferSize_spec 128 false 20 = 20.
Proof.
  apply (output_buffer_size
           {| KeyAlgorithm.name := "AES-ECB"; KeyAlgorithm.length := Js.Num 128 |}
           128 20).
  - reflexivity.
  - lia.
  - lia.
Defined.

(** The rounding unit is the key length: a 256-bit key rounds 20 bytes up
    to 32 and adds 32, where blocks of 16 would give 48. *)
Example output_buffer_size_256 :
  getOutputBufferSize
    {| KeyAlgorithm.name := "AES-ECB"; KeyAlgorithm.length := Js.Num 256 |}
    true (Js.Num 20) = Js.Num 64.
Proof. reflexivity. Qed.

(** A length below 8 bits gives a byte length of 0 and no size at all. *)
Example output_buffer_size_short_key :
  getOutputBufferSize
    {| KeyAlgorithm.name := "AES-ECB"; KeyAlgorithm.length := Js.Num 7 |}
    true (Js.Num 20) = Js.NaN.
Proof. reflexivity. Qed.

(* ================================================================== *)
(** ** Key template *)
(* ================================================================== *)

Lemma indexOf_from_spec (l : list string) (x : string) (i : Z) :
  0 <= i ->
  (indexOf_from l x i = -1 <-> ~ In x l)
  /\ (indexOf_from l x i = -1 \/ i <= indexOf_from l x i).
Proof.
  revert i. induction l as [|y l IH]; intros i Hi; simpl.
  - split; [tauto | now left].
  - destruct (String.eqb_spec y x) as [->|Hne].
    + split; [|right; lia]. split; [lia | intros H; exfalso; apply H; now left].
    + destruct (IH (i + 1) ltac:(lia)) as [IH1 IH2]. split.
      * rewrite IH1. split; [intros H [E|E]; [congruence | tauto] | tauto].
      * destruct IH2 as [IH2|IH2]; [now left | right; lia].
Qed.

(** [l.indexOf(x) !== -1] holds exactly when [x] is an element of [l]. *)
Lemma indexOf_found (l : list string) (x : string) :
  negb (indexOf l x =? -1) = true <-> In x l.
Proof.
  unfold indexOf. destruct (indexOf_from_spec l x 0 ltac:(lia)) as [H _].
  rewrite negb_true_iff, Z.eqb_neq, H.
  destruct (in_dec string_dec x l); tauto.
Qed.



(** The other attributes do not depend on the usages. *)
Lemma template_fixed_attributes (env : ProcessEnv) (GUID : Session.t -> Buffer)
    (session : Session.t) (alg : KeyAlgorithm.t) (extractable : bool)
    (keyUsages : list string) :
  let tpl := create_template env GUID session alg extractable keyUsages in
  Template.class tpl = SECRET_KEY /\ Template.keyType tpl = AES
  /\ Template.derive tpl = false /\ Template.extractable tpl = extractable
  /\ Template.id tpl = GUID session.
Proof. simpl. repeat split. Qed.

(** The template of
    [generateKey({name: "AES-CBC", length: 256}, true, ["encrypt", "decrypt"])]. *)
Example generateKey_template_256 :
  let tpl := generateKey_template sample_env sample_GUID
               {| KeyAlgorithm.name := "AES-CBC"; KeyAlgorithm.length := Js.Num 256 |}
               true ["encrypt"; "decrypt"]%string (sample_session 2 40) in
  Template.label tpl = "AES-256"%string
  /\ Template.valueLen tpl = Some 32
  /\ (Template.encrypt tpl, Template.decrypt tpl) = (true, true)
  /\ (Template.sign tpl, Template.verify tpl, Template.wrap tpl, Template.unwrap tpl)
     = (false, false, false, false).
Proof. vm_compute. repeat split. Qed.

(** The match is exact: a token in another case enables nothing. *)
Example usages_case_sensitive :
  Template.sign (create_template sample_env sample_GUID (sample_session 2 40)
                   {| KeyAlgorithm.name := "AES-CBC"; KeyAlgorithm.length := Js.Num 128 |}
                   false ["Sign"; "wrap"]%string) = false.
Proof. reflexivity. Qed.

(* ================================================================== *)
(** ** The GCM mechanism mapper *)
(* ================================================================== *)

(** The newer parameter class is chosen exactly when both components of
    the version pass their own test. *)
Lemma AesGCM_params_class_240 (s : Session.t) :
  AesGCM_params_class (Some s) = AesGcm240Params
  <-> 2 <= major (Session.cryptokiVersion s) /\ 40 <= minor (Session.cryptokiVersion s).
Proof.
  unfold AesGCM_params_class.
  destruct (Z.geb_spec (major (Session.cryptokiVersion s)) 2) as [HM|HM],
           (Z.geb_spec (minor (Session.cryptokiVersion s)) 40) as [Hm|Hm]; simpl;
    split; intros Hc; try discriminate; try lia; reflexivity.
Qed.

(** On the versions 2.x the choice is the comparison with 2.40. *)
Lemma AesGCM_params_class_major_2 (s : Session.t) :
  major (Session.cryptokiVersion s) = 2 ->
  (AesGCM_params_class (Some s) = AesGcm240Params
   <-> version_at_least (Session.cryptokiVersion s) 2 40 = true).
Proof.
  intros H2. rewrite AesGCM_params_class_240. unfold version_at_least.
  rewrite H2. simpl. rewrite Z.leb_le. lia.
Qed.

(** Without a session the older class is used. *)
Lemma AesGCM_params_class_no_session : AesGCM_params_class None = AesGcmParams.
Proof. reflexivity. Qed.

(** C6 (the code at version 3.0). A module of interface version 3.0 is at
    least 2.40, and the mapper still selects the older parameter class:
    its minor number 0 fails the test against 40. *)
Theorem gcm_version_3_0_selects_older_class :
  version_at_least (Session.cryptokiVersion (sample_session 3 0)) 2 40 = true
  /\ AesGCM_params_class (Some (sample_session 3 0)) = AesGcmParams
  /\ AesGCM_wc2pk11 (fun b => b) (sample_algorithm "AES-GCM") (Some (sample_session 3 0))
     = Resolved {| mechanism := "AES_GCM";
                   params := GcmParams AesGcmParams [] None (Js.Num 128) |}.
Proof. repeat split. Qed.

(** The same holds for every later major version whose minor number is
    below 40. *)
Lemma gcm_later_major_selects_older_class (s : Session.t) :
  2 < major (Session.cryptokiVersion s) ->
  minor (Session.cryptokiVersion s) < 40 ->
  version_at_least (Session.cryptokiVersion s) 2 40 = true
  /\ AesGCM_params_class (Some s) = AesGcmParams.
Proof.
  intros HM Hm. split.
  - unfold version_at_least. apply orb_true_iff. left. now apply Z.ltb_lt.
  - destruct (AesGCM_params_class (Some s)) eqn:E; [reflexivity|].
    apply AesGCM_params_class_240 in E. lia.
Qed.

(** The versions 2.40 and 2.41 select the newer class. *)
Example gcm_version_2_40_2_41 :
  AesGCM_params_class (Some (sample_session 2 40)) = AesGcm240Params
  /\ AesGCM_params_class (Some (sample_session 2 41)) = AesGcm240Params
  /\ AesGCM_params_class (Some (sample_session 2 20)) = AesGcmParams.
Proof. repeat split. Qed.

(* ================================================================== *)
(** ** Base64url *)
(* ================================================================== *)

Lemma b64url_index_char (i : N) :
  (i < 64)%N -> b64url_index (b64url_char i) = Some i.
Proof.
  intros Hi.
  assert (Hall : forallb (fun j => match b64url_index (b64url_char j) with
                                   | Some j' => N.eqb j' j
                                   | None => false
                                   end) (map N.of_nat (seq 0 64)) = true)
    by (vm_compute; reflexivity).
  rewrite forallb_forall in Hall.
  specialize (Hall i).
  assert (Hin : In i (map N.of_nat (seq 0 64))).
  { apply in_map_iff. exists (N.to_nat i). split; [lia|]. apply in_seq. lia. }
  specialize (Hall Hin).
  destruct (b64url_index (b64url_char i)) as [j|]; [|discriminate].
  apply N.eqb_eq in Hall. now subst.
Qed.

Ltac n_divmod := zify; Z.to_euclidean_division_equations; lia.

(** Splitting three bytes into four sextets and joining them again. *)
Lemma sextets_join (x y z : N) :
  (x < 256 -> y < 256 -> z < 256 ->
   let i1 := x / 4 in
   let i2 := (x mod 4) * 16 + y / 16 in
   let i3 := (y mod 16) * 4 + z / 64 in
   let i4 := z mod 64 in
   (i1 < 64 /\ i2 < 64 /\ i3 < 64 /\ i4 < 64)
   /\ i1 * 4 + i2 / 16 = x
   /\ (i2 mod 16) * 16 + i3 / 4 = y
   /\ (i3 mod 4) * 64 + i4 = z)%N.
Proof.
  intros Hx Hy Hz. cbv zeta. repeat split; n_divmod.
Qed.

Lemma byte_lt_256 (b : byte) : (Byte.to_N b < 256)%N.
Proof. pose proof (Byte.to_N_bounded b). lia. Qed.

(** Decoding three bytes' worth of text. *)
Lemma decode_encode_group (a b c : byte) (s : string) :
  let x := Byte.to_N a in
  let y := Byte.to_N b in
  let z := Byte.to_N c in
  Base64Url_decode
    (String (b64url_char (x / 4))
       (String (b64url_char ((x mod 4) * 16 + y / 16))
          (String (b64url_char ((y mod 16) * 4 + z / 64))
             (String (b64url_char (z mod 64)) s))))%N
  = option_map (fun l => a :: b :: c :: l) (Base64Url_decode s).
Proof.
  intros x y z.
  destruct (sextets_join x y z (byte_lt_256 a) (byte_lt_256 b) (byte_lt_256 c))
    as ((H1 & H2 & H3 & H4) & J1 & J2 & J3).
  cbn [Base64Url_decode].
  rewrite !b64url_index_char by assumption.
  rewrite J1, J2, J3. unfold x, y, z. rewrite !byte_of_N_of_byte.
  destruct (Base64Url_decode s); reflexivity.
Qed.

Lemma decode_encode_1 (a : byte) :
  Base64Url_decode (Base64Url_encode [a]) = Some [a].
Proof.
  pose proof (byte_lt_256 a) as Ha.
  cbn [Base64Url_encode Base64Url_decode].
  set (x := Byte.to_N a) in *.
  rewrite !b64url_index_char by n_divmod.
  replace (x / 4 * 4 + x mod 4 * 16 / 16)%N with x by n_divmod.
  unfold x. now rewrite byte_of_N_of_byte.
Qed.

Lemma decode_encode_2 (a b : byte) :
  Base64Url_decode (Base64Url_encode [a; b]) = Some [a; b].
Proof.
  pose proof (byte_lt_256 a) as Ha. pose proof (byte_lt_256 b) as Hb.
  cbn [Base64Url_encode Base64Url_decode].
  set (x := Byte.to_N a) in *. set (y := Byte.to_N b) in *.
  rewrite !b64url_index_char by n_divmod.
  replace (x / 4 * 4 + (x mod 4 * 16 + y / 16) / 16)%N with x by n_divmod.
  replace ((x mod 4 * 16 + y / 16) mod 16 * 16 + y mod 16 * 4 / 4)%N with y by n_divmod.
  unfold x, y. now rewrite !byte_of_N_of_byte.
Qed.

(** Base64url text decodes to the bytes it encodes. *)
Lemma Base64Url_decode_encode (l : Buffer) :
  Base64Url_decode (Base64Url_encode l) = Some l.
Proof.
  assert (H : Base64Url_decode (Base64Url_encode l) = Some l
              /\ (forall a, Base64Url_decode (Base64Url_encode (a :: l)) = Some (a :: l))
              /\ (forall a b, Base64Url_decode (Base64Url_encode (a :: b :: l))
                              = Some (a :: b :: l))); [|apply H].
  induction l as [|c l (IH0 & IH1 & IH2)].
  - split; [reflexivity|]. split; [apply decode_encode_1 | apply decode_encode_2].
  - split; [apply IH1|]. split; [intros a; apply IH2|].
    intros a b. cbn [Base64Url_encode].
    rewrite decode_encode_group, IH0. reflexivity.
Qed.

(** Decoding the text of an encoding does not throw. *)
Lemma b64_decode_encode (v : Buffer) :
  b64_decode (Some (Base64Url_encode v)) = Resolved v.
Proof. unfold b64_decode. now rewrite Base64Url_decode_encode. Qed.

(* ================================================================== *)
(** ** Algorithm names *)
(* ================================================================== *)

(** A name of the form [AES-<MODE>] is matched, and the group is the mode. *)
Lemma exec_AES_of_AES_MODE_name (s : string) :
  is_AES_MODE_name s = true ->
  exists mode, s = ("AES-" ++ mode)%string /\ exec_AES s = Some mode.
Proof.
  destruct s as [|c1 [|c2 [|c3 [|c4 rest]]]]; try (intros H; discriminate H).
  unfold is_AES_MODE_name. intros H.
  repeat (apply andb_true_iff in H as [H ?]).
  apply Ascii.eqb_eq in H. repeat match goal with
    | E : Ascii.eqb _ _ = true |- _ => apply Ascii.eqb_eq in E
    end. subst.
  match goal with E : String.eqb _ _ = true |- _ => apply String.eqb_eq in E; rename E into Hw end.
  exists rest. split; [reflexivity|].
  destruct rest as [|c rest']; [discriminate|].
  unfold exec_AES, match_AES_here. rewrite Hw. reflexivity.
Qed.


(* ================================================================== *)
(** ** Export and import *)
(* ================================================================== *)


(** After the base check and the reading of the attributes, [exportKey]
    is its [switch]. *)
Lemma exportKey_switch_eq (super : BaseCrypto.t) (format : string)
    (key : CryptoKey.t) (attrs : KeyAttributes) :
  BaseCrypto.exportKey super format key = Resolved tt ->
  getAttribute (CryptoKey.key key) = Resolved attrs ->
  exportKey super format key = exportKey_switch format key attrs.
Proof. intros Hs Ha. unfold exportKey. now rewrite Hs, Ha. Qed.

(** A rejection of the base check is the outcome of [exportKey]. *)
Lemma exportKey_base_rejects (super : BaseCrypto.t) (format : string)
    (key : CryptoKey.t) (e : Error) :
  BaseCrypto.exportKey super format key = Rejected e ->
  exportKey super format key = Rejected e.
Proof. intros Hs. unfold exportKey. now rewrite Hs. Qed.

Lemma exportKey_switch_unknown (format : string) (key : CryptoKey.t)
    (attrs : KeyAttributes) :
  toLowerCase format <> "jwk"%string ->
  toLowerCase format <> "raw"%string ->
  exportKey_switch format key attrs = Rejected (UnsupportedFormat format).
Proof.
  intros Hj Hr. unfold exportKey_switch.
  apply String.eqb_neq in Hj, Hr. now rewrite Hj, Hr.
Qed.

Lemma importKey_value_other (format : string) (keyData : KeyData) :
  format <> "jwk"%string -> importKey_value format keyData = Resolved keyData.
Proof.
  intros H. unfold importKey_value. apply String.eqb_neq in H. now rewrite H.
Qed.

Lemma lower_not_jwk (format : string) :
  toLowerCase format <> "jwk"%string -> format <> "jwk"%string.
Proof. intros H ->. now apply H. Qed.

(** C7 (as the code has it). For a format whose lowercase form is neither
    "jwk" nor "raw", exportKey fails with UnsupportedFormat once the base
    check has passed and the attributes of the key are read.  importKey
    has no such case: it takes the key data as the raw value and settles
    as the creation of the session object does. *)
Theorem unknown_format_export_fails_import_takes_raw
    (env : ProcessEnv) (GUID : Session.t -> Buffer) (super : BaseCrypto.t)
    (format : string) (key : CryptoKey.t) (attrs : KeyAttributes) :
  toLowerCase format <> "jwk"%string ->
  toLowerCase format <> "raw"%string ->
  BaseCrypto.exportKey super format key = Resolved tt ->
  getAttribute (CryptoKey.key key) = Resolved attrs ->
  exportKey super format key = Rejected (UnsupportedFormat format)
  /\ (forall keyData algorithm extractable keyUsages session,
        BaseCrypto.importKey super format keyData algorithm extractable keyUsages
        = Resolved tt ->
        importKey env GUID super format keyData algorithm extractable keyUsages session
        = importKey_create env GUID keyData algorithm extractable keyUsages session).
Proof.
  intros Hj Hr Hs Ha. split.
  - rewrite (exportKey_switch_eq _ _ _ _ Hs Ha). now apply exportKey_switch_unknown.
  - intros keyData algorithm extractable keyUsages session Hi.
    unfold importKey. rewrite Hi. simpl.
    now rewrite (importKey_value_other _ _ (lower_not_jwk _ Hj)).
Qed.

Lemma unknown_format_export_fails_import_takes_raw_witness :
  exportKey passing_base "der" (sample_key "AES-CBC") = Rejected (UnsupportedFormat "der")
  /\ (forall keyData algorithm extractable keyUsages session,
        BaseCrypto.importKey passing_base "der" keyData algorithm extractable keyUsages
        = Resolved tt ->
        importKey sample_env sample_GUID passing_base "der" keyData algorithm
          extractable keyUsages session
        = importKey_create sample_env sample_GUID keyData algorithm extractable
            keyUsages session).
Proof.
  apply (unknown_format_export_fails_import_takes_raw sample_env sample_GUID
           passing_base "der" (sample_key "AES-CBC")
           {| value := sample_key_value; value_buffer := sample_key_value;
              valueLen := 16 |}).
  - vm_compute. discriminate.
  - vm_compute. discriminate.
  - reflexivity.
  - reflexivity.
Defined.

(** Import of 16 bytes under the format "der": the key is created from
    the bytes, and no UnsupportedFormat is raised. *)
Lemma import_der_counterexample :
  importKey sample_env sample_GUID passing_base "der" (KBuf sample_key_value)
    (sample_algorithm "AES-CBC") true ["encrypt"%string] (sample_session 2 40)
  = Resolved {| CryptoKey.key := key_object sample_key_value;
                CryptoKey.algorithm :=
                  {| KeyAlgorithm.name := "AES-CBC";
                     KeyAlgorithm.length := Js.Num 128 |} |}
  /\ importKey sample_env sample_GUID passing_base "der" (KBuf sample_key_value)
       (sample_algorithm "AES-CBC") true ["encrypt"%string] (sample_session 2 40)
     <> Rejected (UnsupportedFormat "der").
Proof. split; [reflexivity | discriminate]. Qed.

(** No outcome of [importKey] is an error of its own making: it rejects
    only with the error of the base check, of the decoding or of the
    module. *)
Lemma importKey_rejections (env : ProcessEnv) (GUID : Session.t -> Buffer)
    (super : BaseCrypto.t) (format : string) (keyData : KeyData)
    (algorithm : Algorithm.t) (extractable : bool) (keyUsages : list string)
    (session : Session.t) (e : Error) :
  importKey env GUID super format keyData algorithm extractable keyUsages session
  = Rejected e ->
  BaseCrypto.importKey super format keyData algorithm extractable keyUsages = Rejected e
  \/ importKey_value format keyData = Rejected e
  \/ exists tpl, Session.create session tpl = Rejected e.
Proof.
  unfold importKey, importKey_create.
  destruct (BaseCrypto.importKey super format keyData algorithm extractable keyUsages)
    as [[]|e0]; simpl; [|intros [= ->]; now left].
  destruct (importKey_value format keyData) as [v|e1]; simpl; [|intros [= ->]; now right; left].
  match goal with |- context [Session.create session ?t] =>
    destruct (Session.create session t) as [sk|e2] eqn:Ec end; simpl; [discriminate|].
  intros [= ->]. right; right. eauto.
Qed.

(** What a successful JWK export holds: the encoding of the key's value. *)
Lemma exportKey_jwk_record (super : BaseCrypto.t) (format : string)
    (key : CryptoKey.t) (attrs : KeyAttributes) (jwk : Jwk.t) :
  getAttribute (CryptoKey.key key) = Resolved attrs ->
  exportKey super format key = Resolved (KJwk jwk) ->
  Jwk.k jwk = Some (Base64Url_encode (value attrs))
  /\ Jwk.kty jwk = Some "oct"%string /\ Jwk.ext jwk = Some true.
Proof.
  intros Ha. unfold exportKey.
  destruct (BaseCrypto.exportKey super format key) as [[]|e]; simpl; [|discriminate].
  rewrite Ha. simpl. unfold exportKey_switch.
  destruct (String.eqb (toLowerCase format) "jwk").
  - destruct (exec_AES _); [|discriminate].
    intros [= <-]. simpl. repeat split.
  - destruct (String.eqb (toLowerCase format) "raw"); discriminate.
Qed.

(** The JWK export of a key whose name the pattern matches. *)
Lemma exportKey_jwk_resolves (super : BaseCrypto.t) (key : CryptoKey.t)
    (attrs : KeyAttributes) (mode : string) :
  BaseCrypto.exportKey super "jwk" key = Resolved tt ->
  getAttribute (CryptoKey.key key) = Resolved attrs ->
  exec_AES (KeyAlgorithm.name (CryptoKey.algorithm key)) = Some mode ->
  exportKey super "jwk" key
  = Resolved (KJwk {| Jwk.kty := Some "oct"%string;
                      Jwk.k := Some (Base64Url_encode (value attrs));
                      Jwk.alg := Some ("A" ++ Js.to_string (Js.Num (valueLen attrs * 8))
                                           ++ mode)%string;
                      Jwk.ext := Some true |}).
Proof.
  intros Hs Ha Hm. rewrite (exportKey_switch_eq _ _ _ _ Hs Ha).
  unfold exportKey_switch. simpl. now rewrite Hm.
Qed.

(** C8. Importing with format "jwk" the record that exporting the key [k]
    with format "jwk" produced gives a key whose raw value is the raw
    value of [k]: the decoding of the text of [k] inverts its encoding.
    The module is taken to keep the value it is given, and the base check
    of the import to pass. *)
Theorem jwk_export_import_roundtrip
    (env : ProcessEnv) (GUID : Session.t -> Buffer) (super : BaseCrypto.t)
    (k : CryptoKey.t) (attrs : KeyAttributes) (jwk : Jwk.t)
    (algorithm : Algorithm.t) (extractable : bool) (keyUsages : list string)
    (session : Session.t) :
  getAttribute (CryptoKey.key k) = Resolved attrs ->
  exportKey super "jwk" k = Resolved (KJwk jwk) ->
  BaseCrypto.importKey super "jwk" (KJwk jwk) algorithm extractable keyUsages
  = Resolved tt ->
  module_stores_value session ->
  exists k' attrs',
    importKey env GUID super "jwk" (KJwk jwk) algorithm extractable keyUsages session
    = Resolved k'
    /\ getAttribute (CryptoKey.key k') = Resolved attrs'
    /\ value attrs' = value attrs
    /\ Base64Url_decode (Base64Url_encode (value attrs)) = Some (value attrs).
Proof.
  intros Ha Hexp Hbase Hstore.
  destruct (exportKey_jwk_record _ _ _ _ _ Ha Hexp) as (Hk & _ & _).
  unfold importKey. rewrite Hbase. cbn [then_].
  unfold importKey_value. cbn [String.eqb Ascii.eqb Bool.eqb].
  rewrite Hk, b64_decode_encode. cbn [then_].
  unfold importKey_create.
  match goal with |- context [Session.create session ?t] =>
    destruct (Hstore t (value attrs) eq_refl) as (sk & attrs' & Hc & Hr & Hv & _);
    rewrite Hc end.
  simpl. exists {| CryptoKey.key := sk;
                   CryptoKey.algorithm :=
                     {| KeyAlgorithm.name := Algorithm.name algorithm;
                        KeyAlgorithm.length :=
                          Js.Num (Buffer_length (value attrs) * 8) |} |}, attrs'.
  split; [reflexivity|]. simpl.
  split; [exact Hr|]. split; [exact Hv|]. apply Base64Url_decode_encode.
Qed.

Lemma sample_session_stores_value (M m : Z) : module_stores_value (sample_session M m).
Proof.
  intros tpl v Hv. exists (key_object v). eexists. simpl. rewrite Hv.
  repeat split; reflexivity.
Qed.

Lemma jwk_export_import_roundtrip_witness :
  exists k' attrs',
    importKey sample_env sample_GUID passing_base "jwk"
      (KJwk {| Jwk.kty := Some "oct"%string;
               Jwk.k := Some "ABEiM0RVZneImaq7zN3u_w"%string;
               Jwk.alg := Some "A128CBC"%string;
               Jwk.ext := Some true |})
      (sample_algorithm "AES-CBC") true ["encrypt"%string] (sample_session 2 40)
    = Resolved k'
    /\ getAttribute (CryptoKey.key k') = Resolved attrs'
    /\ value attrs' = sample_key_value
    /\ Base64Url_decode (Base64Url_encode sample_key_value) = Some sample_key_value.
Proof.
  apply (jwk_export_import_roundtrip sample_env sample_GUID passing_base
           (sample_key "AES-CBC") {| value := sample_key_value; value_buffer := sample_key_value;
              valueLen := 16 |}).
  - reflexivity.
  - reflexivity.
  - reflexivity.
  - apply sample_session_stores_value.
Defined.










(** An unknown format is rejected in either case, each time under its own
    spelling, and "JWK" is exported as "jwk" is. *)
Example export_case_variants :
  exportKey passing_base "DER" (sample_key "AES-GCM") = Rejected (UnsupportedFormat "DER")
  /\ exportKey passing_base "der" (sample_key "AES-GCM")
     = Rejected (UnsupportedFormat "der")
  /\ exportKey passing_base "JWK" (sample_key "AES-GCM")
     = exportKey passing_base "jwk" (sample_key "AES-GCM").
Proof. repeat split. Qed.

(** The formats "JWK" and "RAW" are exported. *)
Example export_upper_case_formats :
  exportKey passing_base "JWK" (sample_key "AES-GCM")
  = Resolved (KJwk {| Jwk.kty := Some "oct"%string;
                      Jwk.k := Some "ABEiM0RVZneImaq7zN3u_w"%string;
                      Jwk.alg := Some "A128GCM"%string;
                      Jwk.ext := Some true |})
  /\ exportKey passing_base "RAW" (sample_key "AES-GCM")
     = Resolved (KArrayBuffer sample_key_value).
Proof. split; reflexivity. Qed.

(** A record handed to importKey under "JWK" is not decoded: it becomes
    the value of the template as it is, and its length is not a number. *)
Example import_upper_case_jwk_not_decoded :
  forall jwk : Jwk.t,
    importKey sample_env sample_GUID passing_base "JWK" (KJwk jwk)
      (sample_algorithm "AES-GCM") true [] (sample_session 2 40)
    = Rejected (NativeError "CKR_TEMPLATE_INCOMPLETE").
Proof. reflexivity. Qed.

(* ================================================================== *)
(** ** Encrypt and decrypt *)
(* ================================================================== *)

(** [encrypt] and [decrypt] call the mapper without a session, so a GCM
    call through them carries the older parameter class whatever the
    version of the module. *)
Lemma encrypt_gcm_parameter_class (PrepareData : Buffer -> Buffer)
    (super : BaseCrypto.t) (algorithm : Algorithm.t) (key : CryptoKey.t)
    (data : Buffer) (session : Session.t) :
  BaseCrypto.encrypt super algorithm key data = Resolved tt ->
  exists aad tagLength,
    encrypt super (AesGCM PrepareData) algorithm key data session
    = once_call (Session.createCipher session)
        {| mechanism := "AES_GCM";
           params := GcmParams AesGcmParams (PrepareData (Algorithm.iv algorithm))
                       aad tagLength |}
        (CryptoKey.key key) data
        (getOutputBufferSize (CryptoKey.algorithm key) true
           (Js.Num (Buffer_length data))).
Proof.
  intros Hs. unfold encrypt. rewrite Hs. simpl. eauto.
Qed.

(** The base class has no mechanism: every cipher call on it is rejected
    with NotSupported once the base check has passed. *)
Lemma encrypt_base_not_supported (super : BaseCrypto.t) (algorithm : Algorithm.t)
    (key : CryptoKey.t) (data : Buffer) (session : Session.t) :
  BaseCrypto.encrypt super algorithm key data = Resolved tt ->
  encrypt super AesCrypto algorithm key data session = Rejected NotSupported.
Proof. intros Hs. unfold encrypt. now rewrite Hs. Qed.

(** The promise of encrypt resolves with the whole [ArrayBuffer] under the
    module's result: bytes of that buffer beyond the result are part of
    what the caller gets. *)
Example encrypt_resolves_whole_arraybuffer :
  encrypt passing_base (AesCBC (fun b => b)) (sample_algorithm "AES-CBC")
    (sample_key "AES-CBC") [x68; x69] pooled_session
  = Resolved [x69; x68; x00; x00; x00; x00].
Proof. reflexivity. Qed.

(** A size that is a number and not negative can be allocated. *)
Lemma new_Buffer_valid (n : Z) : 0 <= n -> new_Buffer (Js.Num n) = Resolved (Js.Num n).
Proof.
  intros Hn. unfold new_Buffer.
  destruct (Z.ltb_spec n 0); [lia | reflexivity].
Qed.

(** An allocation fails with a RangeError only. *)
Lemma new_Buffer_rejected (size : Js.number) (e : Error) :
  new_Buffer size = Rejected e ->
  e = RangeError "Invalid buffer size"
  /\ (size = Js.NaN \/ size = Js.PosInf \/ size = Js.NegInf
      \/ exists n, size = Js.Num n /\ n < 0).
Proof.
  unfold new_Buffer. destruct size as [n| | |].
  - destruct (Z.ltb_spec n 0); [|discriminate].
    intros [= <-]. split; [reflexivity|]. right; right; right. eauto.
  - intros [= <-]. split; [reflexivity | tauto].
  - intros [= <-]. split; [reflexivity | tauto].
  - intros [= <-]. split; [reflexivity | tauto].
Qed.

(* ================================================================== *)
(** ** Further properties of the padding steps *)
(* ================================================================== *)

(** X1. Under the padding flag the padded buffer is block-aligned and
    strictly longer than the data, by at most 16 bytes. *)
Theorem padded_length_block_aligned (data : Buffer) :
  Buffer_length (encrypt_add_padding true data) mod 16 = 0
  /\ Buffer_length data < Buffer_length (encrypt_add_padding true data)
     <= Buffer_length data + 16.
Proof.
  pose proof (Buffer_length_nonneg data) as Hn.
  pose proof (pad_length_range _ Hn) as Hm.
  assert (Hlen : Buffer_length (encrypt_add_padding true data)
                 = Buffer_length data + pad_length (Buffer_length data)).
  { rewrite encrypt_add_padding_eq, Buffer_length_app. f_equal.
    unfold Buffer_length at 1. rewrite repeat_length. lia. }
  rewrite Hlen. split; [|lia].
  unfold pad_length. rewrite Z.rem_mod_nonneg by lia.
  replace (Buffer_length data + (16 - Buffer_length data mod 16))
    with ((Buffer_length data / 16 + 1) * 16)
    by (pose proof (Z.div_mod (Buffer_length data) 16 ltac:(lia)); lia).
  apply Z.mod_mul. lia.
Qed.

(** X2. The unpadding step never fails and never invents bytes: what it
    returns is a prefix of the decrypted buffer, whatever the last byte
    is. *)
Theorem unpad_keeps_prefix (dec : Buffer) :
  exists n : nat,
    (n <= List.length dec)%nat
    /\ decrypt_remove_padding true dec = firstn n dec.
Proof.
  destruct dec as [|x dec'].
  - exists 0%nat. split; [simpl; lia | reflexivity].
  - destruct (exists_last (l := x :: dec')) as (front & b & E); [discriminate|].
    rewrite E. rewrite decrypt_remove_padding_last.
    set (n := Buffer_length (front ++ [b])). set (p := byte_value b).
    pose proof (byte_value_range b) as Hp. fold p in Hp.
    exists (Z.to_nat (if n <? p then Z.max (2 * n - p) 0 else n - p)).
    split; [|reflexivity].
    assert (Hn : n = Z.of_nat (List.length (front ++ [b]))) by reflexivity.
    destruct (Z.ltb_spec n p); lia.
Qed.

(** X3. When the last byte [p] of the decrypted buffer exceeds the
    buffer's length, the negative end of the slice counts from the end:
    the first [2 * length - p] bytes are kept, and none once [p] is at
    least twice the length. *)
Theorem unpad_overlong_padding (dec : Buffer) (p : Z) :
  Buffer_get dec (Buffer_length dec - 1) = Some p ->
  Buffer_length dec < p ->
  decrypt_remove_padding true dec
  = firstn (Z.to_nat (2 * Buffer_length dec - p)) dec
  /\ (2 * Buffer_length dec <= p -> decrypt_remove_padding true dec = []).
Proof.
  intros Hlast Hp.
  destruct (Buffer_get_last_inv _ _ Hlast) as (front & b & -> & <-).
  rewrite decrypt_remove_padding_last.
  destruct (Z.ltb_spec (Buffer_length (front ++ [b])) (byte_value b)) as [H|H]; [|lia].
  split.
  - f_equal. lia.
  - intros H2. replace (Z.to_nat _) with 0%nat by lia. reflexivity.
Qed.

Lemma unpad_overlong_padding_witness :
  decrypt_remove_padding true overlong_padding_block
  = firstn 12 overlong_padding_block
  /\ (2 * Buffer_length overlong_padding_block <= 20 ->
      decrypt_remove_padding true overlong_padding_block = []).
Proof.
  apply (unpad_overlong_padding overlong_padding_block 20).
  - reflexivity.
  - reflexivity.
Defined.

(* ================================================================== *)
(** ** Further properties of the buffer size *)
(* ================================================================== *)

(** X4. For a key of [L] bits, [8 <= L < 2^31], the size of the output
    buffer of an encryption is a multiple of the key's byte length that
    leaves room for the data and at least one more key length, and less
    than two. *)
Theorem output_buffer_size_bounds (keyAlg : KeyAlgorithm.t) (L dataSize : Z) :
  KeyAlgorithm.length keyAlg = Js.Num L ->
  8 <= L < 2 ^ 31 ->
  0 <= dataSize <= 2 ^ 52 ->
  exists size,
    getOutputBufferSize keyAlg true (Js.Num dataSize) = Js.Num size
    /\ dataSize + L / 8 <= size < dataSize + 2 * (L / 8)
    /\ size mod (L / 8) = 0.
Proof.
  intros HL Hrange Hsize. unfold getOutputBufferSize.
  rewrite HL, shr3_is_div8 by lia.
  assert (Hlen : 0 < L / 8) by (apply Z.div_str_pos; lia).
  unfold Js.ceil_div, Js.mul, Js.add.
  destruct (Z.eqb_spec (L / 8) 0) as [E|_]; [lia|].
  rewrite ceil_quotient_floor by lia.
  pose proof (ceil_quotient_spec dataSize (L / 8) Hlen) as Hc.
  eexists. split; [reflexivity|]. split; [nia|].
  replace (ceil_quotient dataSize (L / 8) * (L / 8) + L / 8)
    with ((ceil_quotient dataSize (L / 8) + 1) * (L / 8)) by lia.
  apply Z.mod_mul. lia.
Qed.

Lemma output_buffer_size_bounds_witness :
  exists size,
    getOutputBufferSize
      {| KeyAlgorithm.name := "AES-GCM"; KeyAlgorithm.length := Js.Num 192 |}
      true (Js.Num 100) = Js.Num size
    /\ 100 + 192 / 8 <= size < 100 + 2 * (192 / 8)
    /\ size mod (192 / 8) = 0.
Proof.
  apply (output_buffer_size_bounds
           {| KeyAlgorithm.name := "AES-GCM"; KeyAlgorithm.length := Js.Num 192 |}
           192 100).
  - reflexivity.
  - lia.
  - lia.
Defined.

(** X5. A key length that is not a number, or is below 8 bits, has a byte
    length of 0: the size of the output buffer of an encryption is then
    NaN for every data size, while the size for a decryption is still the
    data size. *)
Theorem output_buffer_size_no_byte_length (keyAlg : KeyAlgorithm.t)
    (dataSize : Js.number) :
  KeyAlgorithm.length keyAlg = Js.NaN
  \/ (exists L, KeyAlgorithm.length keyAlg = Js.Num L /\ 0 <= L < 8) ->
  getOutputBufferSize keyAlg true dataSize = Js.NaN
  /\ getOutputBufferSize keyAlg false dataSize = dataSize.
Proof.
  intros H. split; [|reflexivity].
  assert (Hlen : Js.shr (KeyAlgorithm.length keyAlg) 3 = 0).
  { destruct H as [-> | (L & -> & HL)]; [reflexivity|].
    rewrite shr3_is_div8 by lia. apply Z.div_small. lia. }
  unfold getOutputBufferSize. rewrite Hlen.
  destruct dataSize as [x| | |]; try reflexivity.
  unfold Js.ceil_div. simpl (0 =? 0). cbv iota.
  unfold Js.signed_inf.
  destruct (x =? 0); [reflexivity|]. destruct (0 <? x); reflexivity.
Qed.

Lemma output_buffer_size_no_byte_length_witness :
  getOutputBufferSize
    {| KeyAlgorithm.name := "AES-CBC"; KeyAlgorithm.length := Js.Num 7 |}
    true (Js.Num 32) = Js.NaN
  /\ getOutputBufferSize
       {| KeyAlgorithm.name := "AES-CBC"; KeyAlgorithm.length := Js.Num 7 |}
       false (Js.Num 32) = Js.Num 32.
Proof.
  apply (output_buffer_size_no_byte_length
           {| KeyAlgorithm.name := "AES-CBC"; KeyAlgorithm.length := Js.Num 7 |}
           (Js.Num 32)).
  right. exists 7. split; [reflexivity | lia].
Defined.

(* ================================================================== *)
(** ** Further properties of encrypt and decrypt *)
(* ================================================================== *)



(** X7. ECB encryption: once the base check has passed, the module is
    called once, with the mechanism AES_ECB, with the data followed by
    its padding, whose length is a multiple of 16, and with an output
    buffer that has room for the padded data and one more key length
    (for a key of [L] bits, [8 <= L < 2^31]); the size is a number that
    can be allocated. *)
Theorem encrypt_ecb_module_call (super : BaseCrypto.t) (algorithm : Algorithm.t)
    (key : CryptoKey.t) (data : Buffer) (session : Session.t) (L : Z) :
  BaseCrypto.encrypt super algorithm key data = Resolved tt ->
  KeyAlgorithm.length (CryptoKey.algorithm key) = Js.Num L ->
  8 <= L < 2 ^ 31 ->
  Buffer_length data <= 2 ^ 51 ->
  exists padded size,
    encrypt super AesECB algorithm key data session
    = once_call (Session.createCipher session)
        {| mechanism := "AES_ECB"; params := NullParams |}
        (CryptoKey.key key) padded (Js.Num size)
    /\ padded = data ++ repeat (byte_of_Z (pad_length (Buffer_length data)))
                          (Z.to_nat (pad_length (Buffer_length data)))
    /\ Buffer_length padded mod 16 = 0
    /\ Buffer_length padded + L / 8 <= size
    /\ new_Buffer (Js.Num size) = Resolved (Js.Num size).
Proof.
  intros Hs HL Hrange Hsmall.
  pose proof (Buffer_length_nonneg data) as Hn.
  pose proof (pad_length_range _ Hn) as Hm.
  assert (Hlen : Buffer_length (encrypt_add_padding true data)
                 = Buffer_length data + pad_length (Buffer_length data)).
  { rewrite encrypt_add_padding_eq, Buffer_length_app. f_equal.
    unfold Buffer_length at 1. rewrite repeat_length. lia. }
  assert (Hlen8 : 0 < L / 8) by (apply Z.div_str_pos; lia).
  pose proof (ceil_quotient_spec (Buffer_length (encrypt_add_padding true data))
                (L / 8) Hlen8) as Hc.
  exists (encrypt_add_padding true data).
  exists (ceil_quotient (Buffer_length (encrypt_add_padding true data)) (L / 8)
          * (L / 8) + L / 8).
  split; [|split; [|split; [|split]]]; [| | | |apply new_Buffer_valid; lia].
  - unfold encrypt. rewrite Hs. cbn [then_ padding wc2pk11 AesECB].
    f_equal. unfold getOutputBufferSize. rewrite HL, shr3_is_div8 by lia.
    unfold Js.ceil_div, Js.mul, Js.add.
    destruct (Z.eqb_spec (L / 8) 0) as [E|_]; [lia|].
    now rewrite ceil_quotient_floor.
  - apply encrypt_add_padding_eq.
  - rewrite Hlen. unfold pad_length. rewrite Z.rem_mod_nonneg by lia.
    replace (Buffer_length data + (16 - Buffer_length data mod 16))
      with ((Buffer_length data / 16 + 1) * 16)
      by (pose proof (Z.div_mod (Buffer_length data) 16 ltac:(lia)); lia).
    apply Z.mod_mul. lia.
  - lia.
Qed.

Lemma encrypt_ecb_module_call_witness :
  exists padded size,
    encrypt passing_base AesECB (sample_algorithm "AES-ECB") (sample_key "AES-ECB")
      sample_key_value mirror_session
    = once_call (Session.createCipher mirror_session)
        {| mechanism := "AES_ECB"; params := NullParams |}
        (CryptoKey.key (sample_key "AES-ECB")) padded (Js.Num size)
    /\ padded = sample_key_value
                  ++ repeat (byte_of_Z (pad_length (Buffer_length sample_key_value)))
                       (Z.to_nat (pad_length (Buffer_length sample_key_value)))
    /\ Buffer_length padded mod 16 = 0
    /\ Buffer_length padded + 128 / 8 <= size
    /\ new_Buffer (Js.Num size) = Resolved (Js.Num size).
Proof.
  apply (encrypt_ecb_module_call passing_base (sample_algorithm "AES-ECB")
           (sample_key "AES-ECB") sample_key_value mirror_session 128).
  - reflexivity.
  - reflexivity.
  - lia.
  - vm_compute. discriminate.
Defined.

(** X8. encrypt and decrypt call the GCM mapper without the session: the
    mechanism with which they create the cipher object carries the older
    parameter class for every version of the module, and never the class
    of version 2.40. *)
Theorem gcm_cipher_calls_use_older_class (PrepareData : Buffer -> Buffer)
    (super : BaseCrypto.t) (algorithm : Algorithm.t) (key : CryptoKey.t)
    (data : Buffer) (session : Session.t) :
  BaseCrypto.encrypt super algorithm key data = Resolved tt ->
  BaseCrypto.decrypt super algorithm key data = Resolved tt ->
  exists tagLength,
    let mech :=
      {| mechanism := "AES_GCM";
         params := GcmParams AesGcmParams (PrepareData (Algorithm.iv algorithm))
                     (option_map PrepareData (Algorithm.additionalData algorithm))
                     tagLength |} in
    encrypt super (AesGCM PrepareData) algorithm key data session
    = once_call (Session.createCipher session) mech (CryptoKey.key key) data
        (getOutputBufferSize (CryptoKey.algorithm key) true
           (Js.Num (Buffer_length data)))
    /\ decrypt super (AesGCM PrepareData) algorithm key data session
       = (dec <- once_call (Session.createDecipher session) mech (CryptoKey.key key)
                   data (Js.Num (Buffer_length data)) ;;
          Resolved dec).
Proof.
  intros He Hd. unfold encrypt, decrypt. rewrite He, Hd.
  cbn [then_ padding wc2pk11 AesGCM AesCrypto AesGCM_wc2pk11 AesGCM_params_class
       encrypt_add_padding decrypt_remove_padding getOutputBufferSize].
  eexists. split; reflexivity.
Qed.

Lemma gcm_cipher_calls_use_older_class_witness :
  exists tagLength,
    let mech :=
      {| mechanism := "AES_GCM";
         params := GcmParams AesGcmParams [] None tagLength |} in
    encrypt passing_base (AesGCM (fun b => b)) (sample_algorithm "AES-GCM")
      (sample_key "AES-GCM") [x68; x69] mirror_session
    = once_call (Session.createCipher mirror_session) mech
        (CryptoKey.key (sample_key "AES-GCM")) [x68; x69]
        (getOutputBufferSize (CryptoKey.algorithm (sample_key "AES-GCM")) true
           (Js.Num (Buffer_length [x68; x69])))
    /\ decrypt passing_base (AesGCM (fun b => b)) (sample_algorithm "AES-GCM")
         (sample_key "AES-GCM") [x68; x69] mirror_session
       = (dec <- once_call (Session.createDecipher mirror_session) mech
                   (CryptoKey.key (sample_key "AES-GCM")) [x68; x69]
                   (Js.Num (Buffer_length [x68; x69])) ;;
          Resolved dec).
Proof.
  apply (gcm_cipher_calls_use_older_class (fun b => b) passing_base
           (sample_algorithm "AES-GCM") (sample_key "AES-GCM") [x68; x69]
           mirror_session); reflexivity.
Defined.

(** X9. encrypt rewrites no error: when it is rejected, the error is the
    one of the base check, of the mechanism mapper, of the creation of
    the cipher object, the RangeError of allocating an output buffer
    whose size is NaN, infinite or negative, or the module's own error on
    the (padded) data. *)
Theorem encrypt_rejections (super : BaseCrypto.t) (this : AesClass)
    (algorithm : Algorithm.t) (key : CryptoKey.t) (data : Buffer)
    (session : Session.t) (e : Error) :
  encrypt super this algorithm key data session = Rejected e ->
  let padded := encrypt_add_padding (padding this) data in
  let size := getOutputBufferSize (CryptoKey.algorithm key) true
                (Js.Num (Buffer_length padded)) in
  BaseCrypto.encrypt super algorithm key data = Rejected e
  \/ wc2pk11 this algorithm None = Rejected e
  \/ exists mech,
       wc2pk11 this algorithm None = Resolved mech
       /\ (Session.createCipher session mech (CryptoKey.key key) = Rejected e
           \/ exists cipher,
                Session.createCipher session mech (CryptoKey.key key) = Resolved cipher
                /\ ((new_Buffer size = Rejected e
                     /\ e = RangeError "Invalid buffer size"
                     /\ forall n, size = Js.Num n -> n < 0)
                    \/ once cipher padded size = Rejected e)).
Proof.
  unfold encrypt, once_call. cbv zeta.
  destruct (BaseCrypto.encrypt super algorithm key data) as [[]|e0];
    cbn [then_]; [|intros [= ->]; now left].
  destruct (wc2pk11 this algorithm None) as [mech|e1];
    cbn [then_]; [|intros [= ->]; right; now left].
  intros H. right; right. exists mech. split; [reflexivity|].
  destruct (Session.createCipher session mech (CryptoKey.key key)) as [cipher|e2];
    cbn [then_] in H; [|injection H as ->; now left].
  right. exists cipher. split; [reflexivity|].
  destruct (new_Buffer _) as [out|e3] eqn:En; cbn [then_] in H.
  - right. assert (Hout : out = getOutputBufferSize (CryptoKey.algorithm key) true
                            (Js.Num (Buffer_length
                                       (encrypt_add_padding (padding this) data)))).
    { unfold new_Buffer in En. destruct (getOutputBufferSize _ _ _) as [n| | |];
        try discriminate. destruct (n <? 0); [discriminate|]. now injection En as <-. }
    rewrite <- Hout.
    destruct (once cipher _ out) as [r|e4]; cbn [then_] in H; [discriminate|].
    now injection H as ->.
  - injection H as ->. left. split; [reflexivity|].
    destruct (new_Buffer_rejected _ _ En) as (-> & Hsize). split; [reflexivity|].
    intros n Hn. destruct Hsize as [Hs | [Hs | [Hs | (n' & Hs & Hneg)]]];
      rewrite Hs in Hn; try discriminate. injection Hn as <-. exact Hneg.
Qed.

Lemma encrypt_rejections_witness :
  let padded := encrypt_add_padding (padding AesECB) [x68; x69] in
  let size := getOutputBufferSize
                {| KeyAlgorithm.name := "AES-ECB"; KeyAlgorithm.length := Js.Num 7 |}
                true (Js.Num (Buffer_length padded)) in
  BaseCrypto.encrypt passing_base (sample_algorithm "AES-ECB")
    {| CryptoKey.key := key_object sample_key_value;
       CryptoKey.algorithm :=
         {| KeyAlgorithm.name := "AES-ECB"; KeyAlgorithm.length := Js.Num 7 |} |}
    [x68; x69] = Rejected (RangeError "Invalid buffer size")
  \/ wc2pk11 AesECB (sample_algorithm "AES-ECB") None
     = Rejected (RangeError "Invalid buffer size")
  \/ exists mech,
       wc2pk11 AesECB (sample_algorithm "AES-ECB") None = Resolved mech
       /\ (Session.createCipher mirror_session mech (key_object sample_key_value)
           = Rejected (RangeError "Invalid buffer size")
           \/ exists cipher,
                Session.createCipher mirror_session mech (key_object sample_key_value)
                = Resolved cipher
                /\ ((new_Buffer size = Rejected (RangeError "Invalid buffer size")
                     /\ RangeError "Invalid buffer size"
                        = RangeError "Invalid buffer size"
                     /\ forall n, size = Js.Num n -> n < 0)
                    \/ once cipher padded size
                       = Rejected (RangeError "Invalid buffer size"))).
Proof.
  apply (encrypt_rejections passing_base AesECB (sample_algorithm "AES-ECB")
           {| CryptoKey.key := key_object sample_key_value;
              CryptoKey.algorithm :=
                {| KeyAlgorithm.name := "AES-ECB";
                   KeyAlgorithm.length := Js.Num 7 |} |}
           [x68; x69] mirror_session (RangeError "Invalid buffer size")).
  reflexivity.
Defined.

(** X10. The abstract base class maps no algorithm: once the base checks
    have passed, encrypt and decrypt on it are rejected with NotSupported
    whatever the key, the data and the session are, so the module is not
    called. *)
Theorem base_class_not_supported (super : BaseCrypto.t) (algorithm : Algorithm.t)
    (key : CryptoKey.t) (data : Buffer) (session : Session.t) :
  BaseCrypto.encrypt super algorithm key data = Resolved tt ->
  BaseCrypto.decrypt super algorithm key data = Resolved tt ->
  encrypt super AesCrypto algorithm key data session = Rejected NotSupported
  /\ decrypt super AesCrypto algorithm key data session = Rejected NotSupported.
Proof.
  intros He Hd. unfold encrypt, decrypt. rewrite He, Hd. split; reflexivity.
Qed.

Lemma base_class_not_supported_witness :
  encrypt passing_base AesCrypto (sample_algorithm "AES-CTR") (sample_key "AES-CTR")
    [x68; x69] mirror_session = Rejected NotSupported
  /\ decrypt passing_base AesCrypto (sample_algorithm "AES-CTR") (sample_key "AES-CTR")
       [x68; x69] mirror_session = Rejected NotSupported.
Proof.
  apply (base_class_not_supported passing_base (sample_algorithm "AES-CTR")
           (sample_key "AES-CTR") [x68; x69] mirror_session); reflexivity.
Defined.

(** X11. The GCM mapper never fails and never hands the module a tag
    length of 0 or NaN: a tag length that is missing, 0 or NaN becomes
    128, any other tag length is passed as given. *)
Theorem gcm_tag_length_default (PrepareData : Buffer -> Buffer)
    (alg : Algorithm.t) (session : option Session.t) :
  exists cls tagLength,
    AesGCM_wc2pk11 PrepareData alg session
    = Resolved {| mechanism := "AES_GCM";
                  params := GcmParams cls (PrepareData (Algorithm.iv alg))
                              (option_map PrepareData (Algorithm.additionalData alg))
                              tagLength |}
    /\ Js.truthy tagLength = true
    /\ (forall n, Algorithm.tagLength alg = Some n -> Js.truthy n = true ->
                  tagLength = n)
    /\ (Algorithm.tagLength alg = None
        \/ Algorithm.tagLength alg = Some (Js.Num 0)
        \/ Algorithm.tagLength alg = Some Js.NaN ->
        tagLength = Js.Num 128).
Proof.
  unfold AesGCM_wc2pk11. eexists _, _. split; [reflexivity|].
  destruct (Algorithm.tagLength alg) as [n|] eqn:E.
  - destruct (Js.truthy n) eqn:T.
    + split; [exact T|]. split.
      * now intros n' [= ->] _.
      * intros [H | [H | H]]; [discriminate | |]; injection H as ->; discriminate.
    + split; [reflexivity|]. split.
      * intros n' [= ->] T'. congruence.
      * reflexivity.
  - split; [reflexivity|]. split; [discriminate | reflexivity].
Qed.

(* ================================================================== *)
(** ** Further properties of the key template and of generateKey *)
(* ================================================================== *)

(** X12. The template depends on the usage list only through its
    elements: lists with the same elements, in any order and with any
    repetition, give the same template. *)
Theorem template_usages_as_set (env : ProcessEnv) (GUID : Session.t -> Buffer)
    (session : Session.t) (alg : KeyAlgorithm.t) (extractable : bool)
    (usages1 usages2 : list string) :
  (forall u, In u usages1 <-> In u usages2) ->
  create_template env GUID session alg extractable usages1
  = create_template env GUID session alg extractable usages2.
Proof.
  intros Hsame.
  assert (Hflag : forall u, negb (indexOf usages1 u =? -1)
                            = negb (indexOf usages2 u =? -1)).
  { intros u. apply eq_true_iff_eq. rewrite !indexOf_found. apply Hsame. }
  unfold create_template. now rewrite !Hflag.
Qed.

Lemma template_usages_as_set_witness :
  create_template sample_env sample_GUID (sample_session 2 40)
    {| KeyAlgorithm.name := "AES-CBC"; KeyAlgorithm.length := Js.Num 128 |} true
    ["encrypt"; "decrypt"]%string
  = create_template sample_env sample_GUID (sample_session 2 40)
      {| KeyAlgorithm.name := "AES-CBC"; KeyAlgorithm.length := Js.Num 128 |} true
      ["decrypt"; "encrypt"; "decrypt"]%string.
Proof.
  apply (template_usages_as_set sample_env sample_GUID (sample_session 2 40)
           {| KeyAlgorithm.name := "AES-CBC"; KeyAlgorithm.length := Js.Num 128 |} true
           ["encrypt"; "decrypt"]%string ["decrypt"; "encrypt"; "decrypt"]%string).
  intros u. simpl. tauto.
Defined.

(** X13. A token of the usage list that is none of the six known tokens
    changes nothing: the template is the one of the list without it. *)
Theorem template_ignores_unknown_usage (env : ProcessEnv)
    (GUID : Session.t -> Buffer) (session : Session.t) (alg : KeyAlgorithm.t)
    (extractable : bool) (u : string) (usages : list string) :
  ~ In u ["sign"; "verify"; "encrypt"; "decrypt"; "wrapKey"; "unwrapKey"]%string ->
  create_template env GUID session alg extractable (u :: usages)
  = create_template env GUID session alg extractable usages.
Proof.
  intros Hu.
  assert (Hflag : forall t,
             In t ["sign"; "verify"; "encrypt"; "decrypt"; "wrapKey"; "unwrapKey"]%string ->
             negb (indexOf (u :: usages) t =? -1) = negb (indexOf usages t =? -1)).
  { intros t Ht. apply eq_true_iff_eq. rewrite !indexOf_found. simpl.
    split; [intros [E|H]; [subst; contradiction | exact H] | now right]. }
  unfold create_template.
  rewrite !Hflag by (simpl; tauto). reflexivity.
Qed.

Lemma template_ignores_unknown_usage_witness :
  create_template sample_env sample_GUID (sample_session 2 40)
    {| KeyAlgorithm.name := "AES-CBC"; KeyAlgorithm.length := Js.Num 128 |} true
    ["deriveKey"; "encrypt"]%string
  = create_template sample_env sample_GUID (sample_session 2 40)
      {| KeyAlgorithm.name := "AES-CBC"; KeyAlgorithm.length := Js.Num 128 |} true
      ["encrypt"]%string.
Proof.
  apply (template_ignores_unknown_usage sample_env sample_GUID (sample_session 2 40)
           {| KeyAlgorithm.name := "AES-CBC"; KeyAlgorithm.length := Js.Num 128 |} true
           "deriveKey"%string ["encrypt"]%string).
  simpl. intros [H|[H|[H|[H|[H|[H|[]]]]]]]; discriminate H.
Defined.

(** X14. generateKey wraps every error of the module and no other: when
    it is rejected, the error is the one of the base check, or a
    WebCryptoError whose message is "Aes: Can not generate new key", a
    line break and the message of the module's error, or what the
    construction of the key threw after a successful generation, which
    the [catch] passes on as it is. *)
Theorem generateKey_rejections (env : ProcessEnv) (GUID : Session.t -> Buffer)
    (super : BaseCrypto.t)
    (CryptoKey_throws : SecretKey -> KeyAlgorithm.t -> option Error)
    (algorithm : KeyAlgorithm.t) (extractable : bool)
    (keyUsages : list string) (session : Session.t) (e : Error) :
  generateKey env GUID super CryptoKey_throws algorithm extractable keyUsages session
  = Rejected e ->
  let template :=
    generateKey_template env GUID algorithm extractable keyUsages session in
  BaseCrypto.generateKey super algorithm extractable keyUsages = Rejected e
  \/ (exists err,
        Session.generateKey session KeyGen_AES template = Rejected err
        /\ e = WebCryptoError
                 ("Aes: Can not generate new key" ++ newline ++ message err))
  \/ (exists aesKey,
        Session.generateKey session KeyGen_AES template = Resolved aesKey
        /\ CryptoKey_throws aesKey algorithm = Some e).
Proof.
  unfold generateKey. cbv zeta.
  destruct (BaseCrypto.generateKey super algorithm extractable keyUsages) as [[]|e0];
    cbn [then_]; [|intros [= ->]; now left].
  destruct (Session.generateKey session KeyGen_AES _) as [aesKey|err] eqn:Eg.
  - unfold new_CryptoKey.
    destruct (CryptoKey_throws aesKey algorithm) as [e1|] eqn:Et; [|discriminate].
    intros [= ->]. right; right. exists aesKey. split; [reflexivity | exact Et].
  - intros [= <-]. right; left. exists err. split; reflexivity.
Qed.

Lemma generateKey_rejections_witness :
  let template :=
    generateKey_template sample_env sample_GUID
      {| KeyAlgorithm.name := "AES-CBC"; KeyAlgorithm.length := Js.Num 256 |}
      true ["encrypt"%string] (sample_session 2 40) in
  BaseCrypto.generateKey passing_base
    {| KeyAlgorithm.name := "AES-CBC"; KeyAlgorithm.length := Js.Num 256 |}
    true ["encrypt"%string]
  = Rejected (KeyGenerationFailed "CKR_FUNCTION_FAILED")
  \/ (exists err,
        Session.generateKey (sample_session 2 40) KeyGen_AES template = Rejected err
        /\ KeyGenerationFailed "CKR_FUNCTION_FAILED"
           = WebCryptoError
               ("Aes: Can not generate new key" ++ newline ++ message err))
  \/ (exists aesKey,
        Session.generateKey (sample_session 2 40) KeyGen_AES template = Resolved aesKey
        /\ (fun _ _ => None) aesKey
             {| KeyAlgorithm.name := "AES-CBC"; KeyAlgorithm.length := Js.Num 256 |}
           = Some (KeyGenerationFailed "CKR_FUNCTION_FAILED")).
Proof.
  apply (generateKey_rejections sample_env sample_GUID passing_base (fun _ _ => None)
           {| KeyAlgorithm.name := "AES-CBC"; KeyAlgorithm.length := Js.Num 256 |}
           true ["encrypt"%string] (sample_session 2 40)
           (KeyGenerationFailed "CKR_FUNCTION_FAILED")).
  reflexivity.
Defined.

(** X15. For a length of [L] bits, [0 <= L < 2^31], generateKey asks the
    module for [L / 8] whole bytes (the bits beyond the last whole byte
    are dropped) under a template without a value, while the label and
    the algorithm of the key that is returned keep [L] as given. *)
Theorem generateKey_whole_bytes (env : ProcessEnv) (GUID : Session.t -> Buffer)
    (super : BaseCrypto.t)
    (CryptoKey_throws : SecretKey -> KeyAlgorithm.t -> option Error)
    (algorithm : KeyAlgorithm.t) (extractable : bool)
    (keyUsages : list string) (session : Session.t) (L : Z) (k : CryptoKey.t) :
  KeyAlgorithm.length algorithm = Js.Num L ->
  0 <= L < 2 ^ 31 ->
  generateKey env GUID super CryptoKey_throws algorithm extractable keyUsages session
  = Resolved k ->
  exists tpl n,
    Session.generateKey session KeyGen_AES tpl = Resolved (CryptoKey.key k)
    /\ Template.valueLen tpl = Some n
    /\ 8 * n <= L < 8 * n + 8
    /\ Template.value tpl = None
    /\ Template.label tpl = ("AES-" ++ Js.to_string (Js.Num L))%string
    /\ CryptoKey.algorithm k = algorithm.
Proof.
  intros HL Hrange. unfold generateKey.
  destruct (BaseCrypto.generateKey super algorithm extractable keyUsages) as [[]|e0];
    cbn [then_]; [|discriminate].
  destruct (Session.generateKey session KeyGen_AES _) as [aesKey|err] eqn:Eg;
    [|discriminate].
  unfold new_CryptoKey.
  destruct (CryptoKey_throws aesKey algorithm) as [e1|]; [discriminate|].
  intros [= <-].
  exists (generateKey_template env GUID algorithm extractable keyUsages session), (L / 8).
  split; [exact Eg|].
  unfold generateKey_template. cbn [Template.set_valueLen Template.valueLen
    Template.value Template.label create_template CryptoKey.algorithm].
  rewrite HL, shr3_is_div8 by lia.
  repeat split; try reflexivity;
    pose proof (Z.div_mod L 8 ltac:(lia)); pose proof (Z.mod_pos_bound L 8 ltac:(lia)); lia.
Qed.

Lemma generateKey_whole_bytes_witness :
  exists tpl n,
    Session.generateKey mirror_session KeyGen_AES tpl
    = Resolved (CryptoKey.key
                  {| CryptoKey.key := key_object sample_key_value;
                     CryptoKey.algorithm :=
                       {| KeyAlgorithm.name := "AES-CBC";
                          KeyAlgorithm.length := Js.Num 129 |} |})
    /\ Template.valueLen tpl = Some n
    /\ 8 * n <= 129 < 8 * n + 8
    /\ Template.value tpl = None
    /\ Template.label tpl = ("AES-" ++ Js.to_string (Js.Num 129))%string
    /\ CryptoKey.algorithm
         {| CryptoKey.key := key_object sample_key_value;
            CryptoKey.algorithm :=
              {| KeyAlgorithm.name := "AES-CBC";
                 KeyAlgorithm.length := Js.Num 129 |} |}
       = {| KeyAlgorithm.name := "AES-CBC"; KeyAlgorithm.length := Js.Num 129 |}.
Proof.
  apply (generateKey_whole_bytes sample_env sample_GUID passing_base (fun _ _ => None)
           {| KeyAlgorithm.name := "AES-CBC"; KeyAlgorithm.length := Js.Num 129 |}
           true ["encrypt"%string] mirror_session 129).
  - reflexivity.
  - lia.
  - reflexivity.
Defined.

(* ================================================================== *)
(** ** Further properties of export and import *)
(* ================================================================== *)

(** X16. importKey checks no key size: under a format other than "jwk" a
    buffer of any length is handed to the module as the value of the
    template, without a value length, and the key that comes back has the
    name of the algorithm and 8 times the byte length as its bit length,
    which the label repeats. *)
Theorem importKey_raw_length (env : ProcessEnv) (GUID : Session.t -> Buffer)
    (super : BaseCrypto.t) (format : string) (b : Buffer)
    (algorithm : Algorithm.t) (extractable : bool) (keyUsages : list string)
    (session : Session.t) (k : CryptoKey.t) :
  format <> "jwk"%string ->
  importKey env GUID super format (KBuf b) algorithm extractable keyUsages session
  = Resolved k ->
  CryptoKey.algorithm k
  = {| KeyAlgorithm.name := Algorithm.name algorithm;
       KeyAlgorithm.length := Js.Num (Buffer_length b * 8) |}
  /\ exists tpl,
       Session.create session tpl = Resolved (CryptoKey.key k)
       /\ Template.value tpl = Some (KBuf b)
       /\ Template.valueLen tpl = None
       /\ Template.label tpl
          = ("AES-" ++ Js.to_string (Js.Num (Buffer_length b * 8)))%string
       /\ Template.extractable tpl = extractable.
Proof.
  intros Hf. unfold importKey.
  destruct (BaseCrypto.importKey super format (KBuf b) algorithm extractable keyUsages)
    as [[]|e0]; cbn [then_]; [|discriminate].
  rewrite (importKey_value_other _ _ Hf). cbn [then_].
  unfold importKey_create.
  match goal with |- context [Session.create session ?t] =>
    destruct (Session.create session t) as [sk|e1] eqn:Ec end;
    cbn [then_]; [|discriminate].
  intros [= <-]. split; [reflexivity|].
  eexists. split; [exact Ec|]. repeat split.
Qed.

Lemma importKey_raw_length_witness :
  CryptoKey.algorithm
    {| CryptoKey.key := key_object [x01; x02; x03; x04; x05];
       CryptoKey.algorithm :=
         {| KeyAlgorithm.name := "AES-CBC"; KeyAlgorithm.length := Js.Num 40 |} |}
  = {| KeyAlgorithm.name := Algorithm.name (sample_algorithm "AES-CBC");
       KeyAlgorithm.length := Js.Num (Buffer_length [x01; x02; x03; x04; x05] * 8) |}
  /\ exists tpl,
       Session.create (sample_session 2 40) tpl
       = Resolved (CryptoKey.key
                     {| CryptoKey.key := key_object [x01; x02; x03; x04; x05];
                        CryptoKey.algorithm :=
                          {| KeyAlgorithm.name := "AES-CBC";
                             KeyAlgorithm.length := Js.Num 40 |} |})
       /\ Template.value tpl = Some (KBuf [x01; x02; x03; x04; x05])
       /\ Template.valueLen tpl = None
       /\ Template.label tpl
          = ("AES-" ++ Js.to_string
                         (Js.Num (Buffer_length [x01; x02; x03; x04; x05] * 8)))%string
       /\ Template.extractable tpl = false.
Proof.
  apply (importKey_raw_length sample_env sample_GUID passing_base "raw"
           [x01; x02; x03; x04; x05] (sample_algorithm "AES-CBC") false
           ["encrypt"%string] (sample_session 2 40)).
  - discriminate.
  - reflexivity.
Defined.

(** X17. exportKey fails in four ways only: with the error of the base
    check, with the module's error on reading the attributes (before the
    format is looked at), with the error of a name that the pattern does
    not match (JWK format only), or with the error of an unknown format.
    So the raw export of a key whose attributes can be read never fails. *)
Theorem exportKey_rejections (super : BaseCrypto.t) (format : string)
    (key : CryptoKey.t) (e : Error) :
  exportKey super format key = Rejected e ->
  BaseCrypto.exportKey super format key = Rejected e
  \/ getAttribute (CryptoKey.key key) = Rejected e
  \/ (toLowerCase format = "jwk"%string
      /\ exec_AES (KeyAlgorithm.name (CryptoKey.algorithm key)) = None
      /\ e = MalformedAlgorithmName)
  \/ (toLowerCase format <> "jwk"%string
      /\ toLowerCase format <> "raw"%string
      /\ e = UnsupportedFormat format).
Proof.
  unfold exportKey.
  destruct (BaseCrypto.exportKey super format key) as [[]|e0];
    cbn [then_]; [|intros [= ->]; now left].
  destruct (getAttribute (CryptoKey.key key)) as [attrs|e1];
    cbn [then_]; [|intros [= ->]; right; now left].
  unfold exportKey_switch.
  destruct (String.eqb_spec (toLowerCase format) "jwk") as [Hj|Hj].
  - destruct (exec_AES _) eqn:Ex; [discriminate|].
    intros [= <-]. right; right; left. repeat split; assumption.
  - destruct (String.eqb_spec (toLowerCase format) "raw") as [Hr|Hr]; [discriminate|].
    intros [= <-]. right; right; right. repeat split; assumption.
Qed.

Lemma exportKey_rejections_witness :
  BaseCrypto.exportKey passing_base "der"
    {| CryptoKey.key := sensitive_key_object;
       CryptoKey.algorithm :=
         {| KeyAlgorithm.name := "AES-CBC"; KeyAlgorithm.length := Js.Num 128 |} |}
  = Rejected (NativeError "CKR_ATTRIBUTE_SENSITIVE")
  \/ getAttribute sensitive_key_object
     = Rejected (NativeError "CKR_ATTRIBUTE_SENSITIVE")
  \/ (toLowerCase "der" = "jwk"%string
      /\ exec_AES "AES-CBC" = None
      /\ NativeError "CKR_ATTRIBUTE_SENSITIVE" = MalformedAlgorithmName)
  \/ (toLowerCase "der" <> "jwk"%string
      /\ toLowerCase "der" <> "raw"%string
      /\ NativeError "CKR_ATTRIBUTE_SENSITIVE" = UnsupportedFormat "der").
Proof.
  apply (exportKey_rejections passing_base "der"
           {| CryptoKey.key := sensitive_key_object;
              CryptoKey.algorithm :=
                {| KeyAlgorithm.name := "AES-CBC";
                   KeyAlgorithm.length := Js.Num 128 |} |}
           (NativeError "CKR_ATTRIBUTE_SENSITIVE")).
  reflexivity.
Defined.

(** X18. The JWK export of a key whose name is AES-<MODE>: the record has
    the key type "oct", the flag [ext] set whatever the key's own
    extractability, and the tag "A", the bit length and the mode, where
    the bit length is 8 times the value length that the module reports
    and not the length of the key's algorithm. *)
Theorem exportKey_jwk_record_fields (super : BaseCrypto.t) (format : string)
    (key : CryptoKey.t) (attrs : KeyAttributes) :
  toLowerCase format = "jwk"%string ->
  is_AES_MODE_name (KeyAlgorithm.name (CryptoKey.algorithm key)) = true ->
  BaseCrypto.exportKey super format key = Resolved tt ->
  getAttribute (CryptoKey.key key) = Resolved attrs ->
  exists mode,
    KeyAlgorithm.name (CryptoKey.algorithm key) = ("AES-" ++ mode)%string
    /\ exportKey super format key
       = Resolved
           (KJwk {| Jwk.kty := Some "oct"%string;
                    Jwk.k := Some (Base64Url_encode (value attrs));
                    Jwk.alg := Some ("A" ++ Js.to_string (Js.Num (valueLen attrs * 8))
                                         ++ mode)%string;
                    Jwk.ext := Some true |}).
Proof.
  intros Hf Hname Hs Ha.
  destruct (exec_AES_of_AES_MODE_name _ Hname) as (mode & Hn & Hm).
  exists mode. split; [exact Hn|].
  rewrite (exportKey_switch_eq _ _ _ _ Hs Ha).
  unfold exportKey_switch. rewrite Hf, Hm. reflexivity.
Qed.

Lemma exportKey_jwk_record_fields_witness :
  exists mode,
    "AES-CBC"%string = ("AES-" ++ mode)%string
    /\ exportKey passing_base "Jwk"
         {| CryptoKey.key := key_object sample_key_value;
            CryptoKey.algorithm :=
              {| KeyAlgorithm.name := "AES-CBC";
                 KeyAlgorithm.length := Js.Num 256 |} |}
       = Resolved
           (KJwk {| Jwk.kty := Some "oct"%string;
                    Jwk.k := Some (Base64Url_encode sample_key_value);
                    Jwk.alg := Some ("A" ++ Js.to_string (Js.Num (16 * 8))
                                         ++ mode)%string;
                    Jwk.ext := Some true |}).
Proof.
  apply (exportKey_jwk_record_fields passing_base "Jwk"
           {| CryptoKey.key := key_object sample_key_value;
              CryptoKey.algorithm :=
                {| KeyAlgorithm.name := "AES-CBC";
                   KeyAlgorithm.length := Js.Num 256 |} |}
           {| value := sample_key_value; value_buffer := sample_key_value;
              valueLen := 16 |}); reflexivity.
Defined.

(** X19. Raw export and re-import: exporting a key under the format
    "raw" (in any case) resolves with the [ArrayBuffer] under its value,
    whatever its algorithm name is.  Handing that [ArrayBuffer] back to
    importKey under the same format does not restore the key length: an
    [ArrayBuffer] has no [length], so the module is asked to create an
    object whose template carries the [ArrayBuffer], the bit length of
    the algorithm is NaN and the label is "AES-NaN". *)
Theorem raw_export_reimport
    (env : ProcessEnv) (GUID : Session.t -> Buffer) (super : BaseCrypto.t)
    (format : string) (k : CryptoKey.t) (attrs : KeyAttributes)
    (algorithm : Algorithm.t) (extractable : bool) (keyUsages : list string)
    (session : Session.t) :
  toLowerCase format = "raw"%string ->
  BaseCrypto.exportKey super format k = Resolved tt ->
  getAttribute (CryptoKey.key k) = Resolved attrs ->
  BaseCrypto.importKey super format (KArrayBuffer (value_buffer attrs)) algorithm
    extractable keyUsages = Resolved tt ->
  exportKey super format k = Resolved (KArrayBuffer (value_buffer attrs))
  /\ exists tpl,
       importKey env GUID super format (KArrayBuffer (value_buffer attrs)) algorithm
         extractable keyUsages session
       = (sessionObject <- Session.create session tpl ;;
          Resolved {| CryptoKey.key := sessionObject;
                      CryptoKey.algorithm :=
                        {| KeyAlgorithm.name := Algorithm.name algorithm;
                           KeyAlgorithm.length := Js.NaN |} |})
       /\ Template.value tpl = Some (KArrayBuffer (value_buffer attrs))
       /\ Template.label tpl = "AES-NaN"%string.
Proof.
  intros Hf Hexp Ha Himp.
  assert (Hne : format <> "jwk"%string) by (intros ->; discriminate Hf).
  split.
  - rewrite (exportKey_switch_eq _ _ _ _ Hexp Ha). unfold exportKey_switch.
    rewrite Hf. reflexivity.
  - unfold importKey. rewrite Himp. cbn [then_].
    rewrite (importKey_value_other _ _ Hne). cbn [then_].
    unfold importKey_create. eexists. split; [reflexivity|]. split; reflexivity.
Qed.

Lemma raw_export_reimport_witness :
  exportKey passing_base "RAW" (sample_key "HMAC")
  = Resolved (KArrayBuffer sample_key_value)
  /\ exists tpl,
       importKey sample_env sample_GUID passing_base "RAW"
         (KArrayBuffer sample_key_value) (sample_algorithm "AES-GCM") true
         ["encrypt"%string] (sample_session 2 40)
       = (sessionObject <- Session.create (sample_session 2 40) tpl ;;
          Resolved {| CryptoKey.key := sessionObject;
                      CryptoKey.algorithm :=
                        {| KeyAlgorithm.name := Algorithm.name (sample_algorithm "AES-GCM");
                           KeyAlgorithm.length := Js.NaN |} |})
       /\ Template.value tpl = Some (KArrayBuffer sample_key_value)
       /\ Template.label tpl = "AES-NaN"%string.
Proof.
  apply (raw_export_reimport sample_env sample_GUID passing_base "RAW"
           (sample_key "HMAC")
           {| value := sample_key_value; value_buffer := sample_key_value;
              valueLen := 16 |}
           (sample_algorithm "AES-GCM") true ["encrypt"%string] (sample_session 2 40));
    reflexivity.
Defined.

(** X20. Under a format other than "jwk" a JWK record is not decoded:
    once the base check has passed, the record itself is the value of the
    template that the module is asked to create, the bit length of the
    algorithm is NaN (a record has no length) and the label is
    "AES-NaN". *)
Theorem importKey_record_not_decoded (env : ProcessEnv) (GUID : Session.t -> Buffer)
    (super : BaseCrypto.t) (format : string) (jwk : Jwk.t)
    (algorithm : Algorithm.t) (extractable : bool) (keyUsages : list string)
    (session : Session.t) :
  format <> "jwk"%string ->
  BaseCrypto.importKey super format (KJwk jwk) algorithm extractable keyUsages
  = Resolved tt ->
  exists tpl,
    importKey env GUID super format (KJwk jwk) algorithm extractable keyUsages session
    = (sessionObject <- Session.create session tpl ;;
       Resolved {| CryptoKey.key := sessionObject;
                   CryptoKey.algorithm :=
                     {| KeyAlgorithm.name := Algorithm.name algorithm;
                        KeyAlgorithm.length := Js.NaN |} |})
    /\ Template.value tpl = Some (KJwk jwk)
    /\ Template.label tpl = "AES-NaN"%string.
Proof.
  intros Hf Hs. unfold importKey. rewrite Hs. cbn [then_].
  rewrite (importKey_value_other _ _ Hf). cbn [then_].
  unfold importKey_create. eexists. split; [reflexivity|]. split; reflexivity.
Qed.

Lemma importKey_record_not_decoded_witness :
  exists tpl,
    importKey sample_env sample_GUID passing_base "JWK"
      (KJwk {| Jwk.kty := Some "oct"%string; Jwk.k := Some "AQID"%string;
               Jwk.alg := None; Jwk.ext := None |})
      (sample_algorithm "AES-CBC") true [] (sample_session 2 40)
    = (sessionObject <- Session.create (sample_session 2 40) tpl ;;
       Resolved {| CryptoKey.key := sessionObject;
                   CryptoKey.algorithm :=
                     {| KeyAlgorithm.name := Algorithm.name (sample_algorithm "AES-CBC");
                        KeyAlgorithm.length := Js.NaN |} |})
    /\ Template.value tpl
       = Some (KJwk {| Jwk.kty := Some "oct"%string; Jwk.k := Some "AQID"%string;
                       Jwk.alg := None; Jwk.ext := None |})
    /\ Template.label tpl = "AES-NaN"%string.
Proof.
  apply (importKey_record_not_decoded sample_env sample_GUID passing_base "JWK"
           {| Jwk.kty := Some "oct"%string; Jwk.k := Some "AQID"%string;
              Jwk.alg := None; Jwk.ext := None |}
           (sample_algorithm "AES-CBC") true [] (sample_session 2 40)).
  - discriminate.
  - reflexivity.
Defined.



(** X22. A class without the padding flag (GCM, CBC) hands the data to
    the module as it is, and for a key of at least 128 bits the output
    buffer has room for the data and 16 more bytes: a block of the
    module's own padding, or a tag of 128 bits; the size is a number that
    can be allocated. *)
Theorem encrypt_unpadded_module_call (super : BaseCrypto.t) (this : AesClass)
    (algorithm : Algorithm.t) (key : CryptoKey.t) (data : Buffer)
    (session : Session.t) (mech : IAlgorithm) (L : Z) :
  padding this = false ->
  wc2pk11 this algorithm None = Resolved mech ->
  BaseCrypto.encrypt super algorithm key data = Resolved tt ->
  KeyAlgorithm.length (CryptoKey.algorithm key) = Js.Num L ->
  128 <= L < 2 ^ 31 ->
  Buffer_length data <= 2 ^ 51 ->
  exists size,
    encrypt super this algorithm key data session
    = once_call (Session.createCipher session) mech (CryptoKey.key key) data
        (Js.Num size)
    /\ Buffer_length data + 16 <= size
    /\ new_Buffer (Js.Num size) = Resolved (Js.Num size).
Proof.
  intros Hpad Hmech Hs HL Hrange Hsmall.
  pose proof (Buffer_length_nonneg data) as Hn.
  assert (Hlen8 : 16 <= L / 8) by (apply Z.div_le_lower_bound; lia).
  pose proof (ceil_quotient_spec (Buffer_length data) (L / 8) ltac:(lia)) as Hc.
  exists (ceil_quotient (Buffer_length data) (L / 8) * (L / 8) + L / 8).
  split; [|split; [lia | apply new_Buffer_valid; lia]].
  unfold encrypt. rewrite Hs, Hpad, Hmech. cbn [then_ encrypt_add_padding].
  f_equal. unfold getOutputBufferSize. rewrite HL, shr3_is_div8 by lia.
  unfold Js.ceil_div, Js.mul, Js.add.
  destruct (Z.eqb_spec (L / 8) 0) as [E|_]; [lia|].
  now rewrite ceil_quotient_floor by lia.
Qed.

Lemma encrypt_unpadded_module_call_witness :
  exists size,
    encrypt passing_base (AesCBC (fun b => b)) (sample_algorithm "AES-CBC")
      (sample_key "AES-CBC") [x68; x69] mirror_session
    = once_call (Session.createCipher mirror_session)
        {| mechanism := "AES_CBC_PAD"; params := IvParams [] |}
        (CryptoKey.key (sample_key "AES-CBC")) [x68; x69] (Js.Num size)
    /\ Buffer_length [x68; x69] + 16 <= size
    /\ new_Buffer (Js.Num size) = Resolved (Js.Num size).
Proof.
  apply (encrypt_unpadded_module_call passing_base (AesCBC (fun b => b))
           (sample_algorithm "AES-CBC") (sample_key "AES-CBC") [x68; x69]
           mirror_session {| mechanism := "AES_CBC_PAD"; params := IvParams [] |} 128).
  - reflexivity.
  - reflexivity.
  - reflexivity.
  - reflexivity.
  - lia.
  - vm_compute. discriminate.
Defined.
